(** * restful_mapper: the [Mapper] class of [include/restful_mapper/mapper.h]

    A shallow embedding of the mapper that moves named, typed, dirty-tracked
    fields between C++ objects and a JSON document, followed by the
    properties of its flag policy.

    The header only declares what it consumes from [json.h], [field.h] and
    [relation.h]; those collaborators are modelled here from their contract,
    each under a comment that says so. *)

From Stdlib Require Import ZArith String List Bool Lia.
From stdpp Require Import gmap strings.

#[local] Set Warnings "-register-all".

Open Scope string_scope.
Open Scope list_scope.
Open Scope Z_scope.

(* ===================================================================== *)
(** ** Control flow: a cell or a mapper passed by reference, and exceptions *)
(* ===================================================================== *)

(** The only exception the mapper raises itself is the one of
    [Json::not_found(key)]. *)
Inductive Error : Type :=
| NotFound (key : string).

Inductive Outcome (A : Type) : Type :=
| Returned (a : A)
| Thrown (e : Error).
Arguments Returned {A} a.
Arguments Thrown {A} e.

(** A method body working on an object of type [S] that it received by
    reference: it ends by returning or by throwing, and in both cases the
    object stays as the body left it. *)
Definition Action (S A : Type) : Type := S -> Outcome A * S.

Definition ret {S A} (a : A) : Action S A := fun s => (Returned a, s).

Definition throw {S A} (e : Error) : Action S A := fun s => (Thrown e, s).

Definition bind {S A B} (c : Action S A) (k : A -> Action S B) : Action S B :=
  fun s =>
    match c s with
    | (Returned a, s') => k a s'
    | (Thrown e, s') => (Thrown e, s')
    end.

Definition modify {S} (f : S -> S) : Action S unit := fun s => (Returned tt, f s).

Definition read {S A} (f : S -> A) : Action S A := fun s => (Returned (f s), s).

(** An outcome computed without touching the object (a call on a [const]
    collaborator). *)
Definition lift {S A} (o : Outcome A) : Action S A := fun s => (o, s).

(** Run a body that works on the first (resp. second) component only. *)
Definition on_fst {S C A} (c : Action S A) : Action (S * C) A :=
  fun sc => let '(o, s') := c (fst sc) in (o, (s', snd sc)).

Definition on_snd {S C A} (c : Action C A) : Action (S * C) A :=
  fun sc => let '(o, c') := c (snd sc) in (o, (fst sc, c')).

(** [when b c] is the statement [if (b) c;]. *)
Definition when {S} (b : bool) (c : Action S unit) : Action S unit :=
  if b then c else ret tt.

Declare Scope action_scope.
Delimit Scope action_scope with action.
Notation "'let!' x ':=' c 'in' k" := (bind c (fun x => k))
  (at level 10, x name, c at level 100, k at level 200, only parsing) : action_scope.
Notation "c '>>' k" := (bind c (fun _ => k))
  (at level 100, k at level 200, right associativity, only parsing) : action_scope.

Definition outcome {S A} (r : Outcome A * S) : Outcome A := fst r.
Definition final {S A} (r : Outcome A * S) : S := snd r.

Definition raised {A} (o : Outcome A) (e : Error) : Prop := o = Thrown e.

Definition succeeded {A} (o : Outcome A) : bool :=
  match o with Returned _ => true | Thrown _ => false end.

(* ===================================================================== *)
(** ** json.h *)
(* ===================================================================== *)

Module Json.

(** Modelled from the spec: [Json::Node] of json.h, the navigable tree the
    document service parses a text into. *)
Inductive Node : Type :=
| JNull
| JBool (b : bool)
| JInt (n : Z)
| JString (s : string)
| JArray (items : list Node)
| JObject (members : list (string * Node)).

Definition is_null (n : Node) : bool :=
  match n with JNull => true | _ => false end.

(** Modelled from the spec: the operations of json.h that the mapper calls
    and whose results it only passes on: [Parser::load] (the tokenizer),
    [Parser::empty] on a key that is present, and the conversions
    [Node::to_string], [Node::to_int] and [Node::dump]. *)
Class Service : Type := {
  parse : string -> gmap string Node;
  node_empty : Node -> bool;
  to_string : Node -> string;
  to_int : Node -> Z;
  dump_node : Node -> string
}.

(** Modelled from the spec: [Json::Parser] of json.h. The members of the
    loaded document by key; a parser that was never loaded has none. *)
Definition Parser : Type := gmap string Node.

Definition unloaded : Parser := ∅.

Definition load `{Service} (json_struct : string) (p : Parser) : Parser :=
  parse json_struct.

Definition exists_ (key : string) (p : Parser) : bool :=
  match p !! key with Some _ => true | None => false end.

(** Modelled from the spec: [Json::not_found] raises the field-not-found
    error naming the key. *)
Definition not_found {S A} (key : string) : Action S A := throw (NotFound key).

(** Modelled from the spec: [Parser::find] of json.h fails with the same
    error when the key is absent, which it is for every key of a parser
    that was never loaded. *)
Definition find (key : string) (p : Parser) : Outcome Node :=
  match p !! key with
  | Some n => Returned n
  | None => Thrown (NotFound key)
  end.

(** Modelled from the spec: [Parser::empty] of json.h, a key is empty when
    it is absent or bound to an empty node. *)
Definition empty `{Service} (key : string) (p : Parser) : bool :=
  match p !! key with
  | Some n => node_empty n
  | None => true
  end.

(** Modelled from the spec: the scalars [Emitter::emit(value)] accepts. *)
Inductive Value : Type :=
| VBool (b : bool)
| VInt (n : Z)
| VString (s : string).

(** Modelled from the spec: [Json::Emitter] of json.h, as the sequence of
    the emit calls it received, oldest first; [dump] hands that document
    back. One constructor per operation of the emitter: [emit_map_open],
    [emit_map_close], [emit(key)], [emit(value)], [emit_null] and
    [emit_json(rawText)]. *)
Inductive Token : Type :=
| MapOpen
| MapClose
| Key (key : string)
| Scalar (v : Value)
| Null
| Raw (json_struct : string).

Definition Emitter : Type := list Token.

Definition fresh : Emitter := [].

Definition emit (t : Token) (e : Emitter) : Emitter := e ++ [t].

Definition dump (e : Emitter) : list Token := e.

End Json.

(* ===================================================================== *)
(** ** field.h *)
(* ===================================================================== *)

Module Field.

(** Modelled from the spec: [Field<T>] of field.h, a cell holding an
    optional scalar and a dirty flag; the cell is null when the scalar is
    missing. [set] and [clear] take the flag that says whether the cell is
    marked dirty. *)
Record t (T : Type) : Type := Build {
  value : option T;
  dirty : bool
}.
Arguments Build {T} value dirty.
Arguments value {T} _.
Arguments dirty {T} _.

Definition is_null {T} (attr : t T) : bool :=
  match value attr with None => true | Some _ => false end.

Definition is_dirty {T} (attr : t T) : bool := dirty attr.

Definition set {T} (v : T) (mark_dirty : bool) (attr : t T) : t T :=
  Build (Some v) (if mark_dirty then true else dirty attr).

Definition clear {T} (mark_dirty : bool) (attr : t T) : t T :=
  Build None (if mark_dirty then true else dirty attr).

Definition touch {T} (attr : t T) : t T := Build (value attr) true.

Definition clean {T} (attr : t T) : t T := Build (value attr) false.

(** Modelled from the spec: how a value of the field's type is read from a
    node ([Field<T>::set(node, ...)]) and handed to the emitter
    ([emit(attr)]). *)
Class Scalar (T : Type) : Type := {
  from_node : Json.Node -> T;
  to_value : T -> Json.Value
}.

(** Modelled from the spec: the text form of [Field<std::time_t>], read by
    its [set(string, ...)] and written by [to_iso8601]. *)
Class TimeFormat : Type := {
  from_iso8601 : string -> Z;
  to_iso8601 : bool -> Z -> string
}.

End Field.

(** [Primary] of field.h is a cell holding an integer identifier. *)
Definition Primary : Type := Field.t Z.

(* ===================================================================== *)
(** ** relation.h *)
(* ===================================================================== *)

(** Modelled from the spec: what the mapper consumes of [HasOne<T>] and
    [HasMany<T>] of relation.h. *)
Class Relation (R : Type) : Type := {
  from_json : string -> Z -> R -> R;
  to_json : Z -> R -> string;
  rel_is_dirty : R -> bool;
  rel_clean : R -> R
}.

(* ===================================================================== *)
(** ** mapper.h *)
(* ===================================================================== *)

Module Mapper.

(** [enum MapperConfig] *)
Definition IGNORE_MISSING_FIELDS : Z := 1.
Definition INCLUDE_PRIMARY_KEY : Z := 2.
Definition IGNORE_DIRTY_FLAG : Z := 4.
Definition TOUCH_FIELDS : Z := 8.
Definition KEEP_FIELDS_DIRTY : Z := 16.
Definition OUTPUT_SINGLE_FIELD : Z := 32.

(** The private members of the class. [flags_] is a C++ [int]; its bitwise
    operators are those of [Z] on the two's complement reading. *)
Record t : Type := Build {
  emitter_ : Json.Emitter;
  parser_ : Json.Parser;
  flags_ : Z;
  field_filter_ : string
}.

(** The test [(flags_ & FLAG) == FLAG] shared by the six [should_*]
    members. *)
Definition has_flag (flags flag : Z) : bool := Z.land flags flag =? flag.

Definition should_ignore_missing_fields (m : t) : bool :=
  has_flag (flags_ m) IGNORE_MISSING_FIELDS.

Definition should_include_primary_key (m : t) : bool :=
  has_flag (flags_ m) INCLUDE_PRIMARY_KEY.

Definition should_ignore_dirty_flag (m : t) : bool :=
  has_flag (flags_ m) IGNORE_DIRTY_FLAG.

Definition should_touch_fields (m : t) : bool :=
  has_flag (flags_ m) TOUCH_FIELDS.

Definition should_keep_fields_dirty (m : t) : bool :=
  has_flag (flags_ m) KEEP_FIELDS_DIRTY.

Definition should_output_single_field (m : t) : bool :=
  has_flag (flags_ m) OUTPUT_SINGLE_FIELD.

(** A call [emitter_.emit...(...)] from a member of the mapper. *)
Definition emitter_call (tok : Json.Token) : Action t unit :=
  modify (fun m =>
    Build (Json.emit tok (emitter_ m)) (parser_ m) (flags_ m) (field_filter_ m)).

(** The same call from a [set] that also holds the caller's cell. *)
Definition emit {C} (tok : Json.Token) : Action (t * C) unit :=
  on_fst (emitter_call tok).

(** [field_filter_ != key] *)
Definition filtered_out (m : t) (key : string) : bool :=
  negb (String.eqb (field_filter_ m) key).

(** The members as the default constructors leave them, before the body of
    a constructor of [Mapper] runs and assigns [flags_]. *)
Definition blank : t := Build Json.fresh Json.unloaded 0 "".

(** [Mapper(const int &flags = 0)] *)
Definition new (flags : Z) : t :=
  let m := Build (emitter_ blank) (parser_ blank) flags (field_filter_ blank) in
  final (when (negb (should_output_single_field m)) (emitter_call Json.MapOpen) m).

(** [Mapper(std::string json_struct, const int &flags = 0)] *)
Definition new_from `{Json.Service} (json_struct : string) (flags : Z) : t :=
  let m := Build (emitter_ blank) (parser_ blank) flags (field_filter_ blank) in
  let m := final (when (negb (should_output_single_field m))
                       (emitter_call Json.MapOpen) m) in
  Build (emitter_ m) (Json.load json_struct (parser_ m)) (flags_ m) (field_filter_ m).

Definition flags (m : t) : Z := flags_ m.

Definition set_flags (flags : Z) (m : t) : t :=
  Build (emitter_ m) (parser_ m) flags (field_filter_ m).

Definition field_filter (m : t) : string := field_filter_ m.

Definition set_field_filter (field_filter : string) (m : t) : t :=
  Build (emitter_ m) (parser_ m) (flags_ m) field_filter.

(** [std::string dump()] *)
Definition dump : Action t (list Json.Token) :=
  (let! m := read id in
   when (negb (should_output_single_field m)) (emitter_call Json.MapClose) >>
   read (fun m => Json.dump (emitter_ m)))%action.

(** [std::string get(const char *key) const] *)
Definition get `{Json.Service} (key : string) (m : t) : Outcome string :=
  match Json.find key (parser_ m) with
  | Returned node => Returned (Json.dump_node node)
  | Thrown e => Thrown e
  end.

(** [void set(const char *key, std::string json_struct)] *)
Definition set (key : string) (json_struct : string) : Action t unit :=
  (let! m := read id in
   if should_output_single_field m && filtered_out m key then ret tt else
   when (negb (should_output_single_field m)) (emitter_call (Json.Key key)) >>
   emitter_call (Json.Raw json_struct))%action.

(** [template <class T> void get(const char *key, Field<T> &attr) const] *)
Definition get_field {T} `{Field.Scalar T} (key : string) (m : t)
  : Action (Field.t T) unit :=
  ((if Json.exists_ key (parser_ m) then
      let! node := lift (Json.find key (parser_ m)) in
      if Json.is_null node then modify (Field.clear true)
      else modify (Field.set (Field.from_node node) true)
    else if negb (should_ignore_missing_fields m) then Json.not_found key
    else ret tt) >>
   when (should_touch_fields m) (modify Field.touch))%action.

(** [emitter_.emit(attr)] on a cell that is not null. *)
Definition emit_attr {T} `{Field.Scalar T} (attr : Field.t T)
  : Action (t * Field.t T) unit :=
  match Field.value attr with
  | Some v => emit (Json.Scalar (Field.to_value v))
  | None => ret tt
  end.

(** [template <class T> void set(const char *key, const Field<T> &attr)] *)
Definition set_field {T} `{Field.Scalar T} (key : string)
  : Action (t * Field.t T) unit :=
  (let! m := read fst in
   let! attr := read snd in
   if should_output_single_field m && filtered_out m key then ret tt else
   if negb (should_ignore_dirty_flag m) && negb (Field.is_dirty attr) then ret tt else
   when (negb (should_output_single_field m)) (emit (Json.Key key)) >>
   (if Field.is_null attr then emit Json.Null else emit_attr attr) >>
   when (negb (should_keep_fields_dirty m)) (on_snd (modify Field.clean)))%action.

(** [void get(const char *key, Field<std::time_t> &attr) const] *)
Definition get_time `{Json.Service} `{Field.TimeFormat} (key : string) (m : t)
  : Action (Field.t Z) unit :=
  ((if Json.exists_ key (parser_ m) then
      let! node := lift (Json.find key (parser_ m)) in
      if Json.is_null node then modify (Field.clear true)
      else modify (Field.set (Field.from_iso8601 (Json.to_string node)) true)
    else if negb (should_ignore_missing_fields m) then Json.not_found key
    else ret tt) >>
   when (should_touch_fields m) (modify Field.touch))%action.

(** [emitter_.emit(attr.to_iso8601(true))] on a cell that is not null. *)
Definition emit_time `{Field.TimeFormat} (attr : Field.t Z)
  : Action (t * Field.t Z) unit :=
  match Field.value attr with
  | Some v => emit (Json.Scalar (Json.VString (Field.to_iso8601 true v)))
  | None => ret tt
  end.

(** [void set(const char *key, const Field<std::time_t> &attr)] *)
Definition set_time `{Field.TimeFormat} (key : string)
  : Action (t * Field.t Z) unit :=
  (let! m := read fst in
   let! attr := read snd in
   if should_output_single_field m && filtered_out m key then ret tt else
   if negb (should_ignore_dirty_flag m) && negb (Field.is_dirty attr) then ret tt else
   when (negb (should_output_single_field m)) (emit (Json.Key key)) >>
   (if Field.is_null attr then emit Json.Null else emit_time attr) >>
   when (negb (should_keep_fields_dirty m)) (on_snd (modify Field.clean)))%action.

(** [void get(const char *key, Primary &attr) const] *)
Definition get_primary `{Json.Service} (key : string) (m : t)
  : Action Primary unit :=
  ((if Json.exists_ key (parser_ m) then
      let! node := lift (Json.find key (parser_ m)) in
      if Json.is_null node then modify (Field.clear true)
      else modify (Field.set (Json.to_int node) true)
    else if negb (should_ignore_missing_fields m) then Json.not_found key
    else ret tt) >>
   when (should_touch_fields m) (modify Field.touch))%action.

(** [emitter_.emit(attr.get())] on a primary key that is not null. *)
Definition emit_primary (attr : Primary) : Action (t * Primary) unit :=
  match Field.value attr with
  | Some v => emit (Json.Scalar (Json.VInt v))
  | None => ret tt
  end.

(** [void set(const char *key, const Primary &attr)] *)
Definition set_primary (key : string) : Action (t * Primary) unit :=
  (let! m := read fst in
   let! attr := read snd in
   if should_output_single_field m && filtered_out m key then ret tt else
   if negb (should_include_primary_key m) || Field.is_null attr then ret tt else
   when (negb (should_output_single_field m)) (emit (Json.Key key)) >>
   emit_primary attr >>
   when (negb (should_keep_fields_dirty m)) (on_snd (modify Field.clean)))%action.

(** The bitmasks handed to a relation: [flags_ | INCLUDE_PRIMARY_KEY] by
    [get] and [(flags_ | INCLUDE_PRIMARY_KEY) & ~OUTPUT_SINGLE_FIELD] by
    [set]. *)
Definition from_json_flags (m : t) : Z := Z.lor (flags_ m) INCLUDE_PRIMARY_KEY.

Definition to_json_flags (m : t) : Z :=
  Z.land (Z.lor (flags_ m) INCLUDE_PRIMARY_KEY) (Z.lnot OUTPUT_SINGLE_FIELD).

(** [template <class T> void get(const char *key, HasOne<T> &attr) const] *)
Definition get_has_one `{Json.Service} {R} `{Relation R} (key : string) (m : t)
  : Action R unit :=
  (if Json.empty key (parser_ m) then ret tt else
   let! json_struct := lift (get key m) in
   modify (from_json json_struct (from_json_flags m)))%action.

(** [template <class T> void set(const char *key, const HasOne<T> &attr)] *)
Definition set_has_one {R} `{Relation R} (key : string) : Action (t * R) unit :=
  (let! m := read fst in
   let! attr := read snd in
   if should_output_single_field m && filtered_out m key then ret tt else
   if negb (should_ignore_dirty_flag m) && negb (rel_is_dirty attr) then ret tt else
   on_fst (set key (to_json (to_json_flags m) attr)) >>
   when (negb (should_keep_fields_dirty m)) (on_snd (modify rel_clean)))%action.

(** [template <class T> void get(const char *key, HasMany<T> &attr) const] *)
Definition get_has_many `{Json.Service} {R} `{Relation R} (key : string) (m : t)
  : Action R unit :=
  (if Json.empty key (parser_ m) then ret tt else
   let! json_struct := lift (get key m) in
   modify (from_json json_struct (from_json_flags m)))%action.

(** [template <class T> void set(const char *key, const HasMany<T> &attr)] *)
Definition set_has_many {R} `{Relation R} (key : string) : Action (t * R) unit :=
  (let! m := read fst in
   let! attr := read snd in
   if should_output_single_field m && filtered_out m key then ret tt else
   if negb (should_ignore_dirty_flag m) && negb (rel_is_dirty attr) then ret tt else
   on_fst (set key (to_json (to_json_flags m) attr)) >>
   when (negb (should_keep_fields_dirty m)) (on_snd (modify rel_clean)))%action.

End Mapper.

(* ===================================================================== *)
(** ** A serialization pass, as the callers of the class perform it *)
(* ===================================================================== *)

(** One call on a mapper between its construction and [dump]: a [set] with
    the cell the caller passes, or one of the two setters of the
    configuration. *)
Inductive Call : Type :=
| SetJson (key json_struct : string)
| SetField {T : Type} `{Field.Scalar T} (key : string) (attr : Field.t T)
| SetTime (key : string) (attr : Field.t Z)
| SetPrimary (key : string) (attr : Primary)
| SetHasOne {R : Type} `{Relation R} (key : string) (attr : R)
| SetHasMany {R : Type} `{Relation R} (key : string) (attr : R)
| SetFlags (flags : Z)
| SetFieldFilter (field_filter : string).

(** The mapper after the call. *)
Definition call `{Field.TimeFormat} (c : Call) (m : Mapper.t) : Mapper.t :=
  match c with
  | SetJson key json_struct => final (Mapper.set key json_struct m)
  | SetField key attr => fst (final (Mapper.set_field key (m, attr)))
  | SetTime key attr => fst (final (Mapper.set_time key (m, attr)))
  | SetPrimary key attr => fst (final (Mapper.set_primary key (m, attr)))
  | SetHasOne key attr => fst (final (Mapper.set_has_one key (m, attr)))
  | SetHasMany key attr => fst (final (Mapper.set_has_many key (m, attr)))
  | SetFlags flags => Mapper.set_flags flags m
  | SetFieldFilter field_filter => Mapper.set_field_filter field_filter m
  end.

Fixpoint run `{Field.TimeFormat} (calls : list Call) (m : Mapper.t) : Mapper.t :=
  match calls with
  | [] => m
  | c :: calls => run calls (call c m)
  end.

(** The key a [set] call names; the two setters name none. *)
Definition call_key (c : Call) : option string :=
  match c with
  | SetJson key _ | SetField key _ | SetTime key _ | SetPrimary key _
  | SetHasOne key _ | SetHasMany key _ => Some key
  | SetFlags _ | SetFieldFilter _ => None
  end.

Definition is_set (c : Call) : bool :=
  match call_key c with Some _ => true | None => false end.

(** The wrapper calls among the calls an emitter received. *)
Definition is_open (tok : Json.Token) : bool :=
  match tok with Json.MapOpen => true | _ => false end.

Definition is_close (tok : Json.Token) : bool :=
  match tok with Json.MapClose => true | _ => false end.

Definition is_key (tok : Json.Token) : bool :=
  match tok with Json.Key _ => true | _ => false end.

Definition opens (e : Json.Emitter) : nat := length (List.filter is_open e).

Definition closes (e : Json.Emitter) : nat := length (List.filter is_close e).

(** The mapper once its emitter has received the calls [toks]. *)
Definition appended (toks : list Json.Token) (m : Mapper.t) : Mapper.t :=
  Mapper.Build (Mapper.emitter_ m ++ toks) (Mapper.parser_ m) (Mapper.flags_ m)
    (Mapper.field_filter_ m).

(** A serialization pass: construction (empty, or with an input text), the
    calls, then [dump]. *)
Definition serialize `{Field.TimeFormat} (flags : Z) (calls : list Call)
  : Outcome (list Json.Token) * Mapper.t :=
  Mapper.dump (run calls (Mapper.new flags)).

Definition serialize_from `{Json.Service} `{Field.TimeFormat}
  (json_struct : string) (flags : Z) (calls : list Call)
  : Outcome (list Json.Token) * Mapper.t :=
  Mapper.dump (run calls (Mapper.new_from json_struct flags)).

(** The statement of what a [set] call writes, to compare the calls with:
    the value that follows the key, or nothing when the call is skipped for
    a reason of its own: a clean cell or relation without
    ignore-dirty-flag, a primary key that is null or not included. The
    single-field filter and the key are not part of it. *)
Definition value_tokens `{Field.TimeFormat} (flags : Z) (c : Call)
  : list Json.Token :=
  match c with
  | SetJson _ json_struct => [Json.Raw json_struct]
  | SetField _ attr =>
      if negb (Mapper.has_flag flags Mapper.IGNORE_DIRTY_FLAG)
         && negb (Field.is_dirty attr)
      then []
      else [match Field.value attr with
            | None => Json.Null
            | Some v => Json.Scalar (Field.to_value v)
            end]
  | SetTime _ attr =>
      if negb (Mapper.has_flag flags Mapper.IGNORE_DIRTY_FLAG)
         && negb (Field.is_dirty attr)
      then []
      else [match Field.value attr with
            | None => Json.Null
            | Some v => Json.Scalar (Json.VString (Field.to_iso8601 true v))
            end]
  | SetPrimary _ attr =>
      if Mapper.has_flag flags Mapper.INCLUDE_PRIMARY_KEY
      then match Field.value attr with
           | None => []
           | Some v => [Json.Scalar (Json.VInt v)]
           end
      else []
  | SetHasOne _ attr | SetHasMany _ attr =>
      if negb (Mapper.has_flag flags Mapper.IGNORE_DIRTY_FLAG)
         && negb (rel_is_dirty attr)
      then []
      else [Json.Raw
              (to_json
                 (Z.land (Z.lor flags Mapper.INCLUDE_PRIMARY_KEY)
                    (Z.lnot Mapper.OUTPUT_SINGLE_FIELD)) attr)]
  | SetFlags _ | SetFieldFilter _ => []
  end.

(** The calls of a pass that name the key [f]. *)
Definition names (f : string) (c : Call) : bool :=
  match call_key c with
  | Some key => String.eqb f key
  | None => false
  end.

(* ===================================================================== *)
(** ** Collaborators for running the mapper on concrete inputs *)
(* ===================================================================== *)

Module Sample.

#[local] Open Scope string_scope.

Definition dquote : string :=
  String (Ascii.Ascii false true false false false true false false) "".

(** The text [{"a": 1}] and the text [{"F": null}]. *)
Definition text_a : string := "{" ++ dquote ++ "a" ++ dquote ++ ": 1}".
Definition text_F : string := "{" ++ dquote ++ "F" ++ dquote ++ ": null}".
Definition text_id : string := "{" ++ dquote ++ "id" ++ dquote ++ ": null}".

Definition doc_a : gmap string Json.Node := {[ "a" := Json.JInt 1 ]}.
Definition doc_F : gmap string Json.Node := {[ "F" := Json.JNull ]}.
Definition doc_id : gmap string Json.Node := {[ "id" := Json.JNull ]}.

Definition digit (n : nat) : string :=
  String (Ascii.ascii_of_nat (48 + n)) "".

Fixpoint decimal (fuel n : nat) : string :=
  match fuel with
  | O => ""
  | S fuel =>
      if (n <? 10)%nat then digit n
      else decimal fuel (n / 10) ++ digit (n mod 10)
  end.

Definition show_Z (z : Z) : string :=
  if (z <? 0)%Z then "-" ++ decimal (S (Z.to_nat (- z))) (Z.to_nat (- z))
  else decimal (S (Z.to_nat z)) (Z.to_nat z).

Fixpoint show (n : Json.Node) : string :=
  match n with
  | Json.JNull => "null"
  | Json.JBool true => "true"
  | Json.JBool false => "false"
  | Json.JInt z => show_Z z
  | Json.JString s => dquote ++ s ++ dquote
  | Json.JArray items =>
      "[" ++ (fix go (l : list Json.Node) : string :=
                match l with
                | [] => ""
                | [x] => show x
                | x :: l => show x ++ "," ++ go l
                end) items ++ "]"
  | Json.JObject members =>
      "{" ++ (fix go (l : list (string * Json.Node)) : string :=
                match l with
                | [] => ""
                | [(k, x)] => dquote ++ k ++ dquote ++ ":" ++ show x
                | (k, x) :: l => dquote ++ k ++ dquote ++ ":" ++ show x ++ "," ++ go l
                end) members ++ "}"
  end.

(** A document service that knows the three texts above. *)
#[export] Instance service : Json.Service := {|
  Json.parse := fun text =>
    if String.eqb text text_a then doc_a
    else if String.eqb text text_F then doc_F
    else if String.eqb text text_id then doc_id
    else ∅;
  Json.node_empty := fun n =>
    match n with
    | Json.JNull | Json.JString "" | Json.JArray [] | Json.JObject [] => true
    | _ => false
    end;
  Json.to_string := fun n =>
    match n with Json.JString s => s | _ => show n end;
  Json.to_int := fun n =>
    match n with Json.JInt z => z | _ => 0 end;
  Json.dump_node := show
|}.

#[export] Instance scalar_Z : Field.Scalar Z := {|
  Field.from_node := Json.to_int;
  Field.to_value := Json.VInt
|}.

#[export] Instance scalar_string : Field.Scalar string := {|
  Field.from_node := Json.to_string;
  Field.to_value := Json.VString
|}.

(** A calendar that knows two instants. *)
#[export] Instance time_format : Field.TimeFormat := {|
  Field.from_iso8601 := fun s =>
    if String.eqb s "2001-09-09T01:46:40Z" then 1000000000 else 0;
  Field.to_iso8601 := fun _ t =>
    if (t =? 1000000000)%Z then "2001-09-09T01:46:40Z" else "1970-01-01T00:00:00Z"
|}.

(** A relation container that remembers the fragment and the bitmask it was
    last hydrated with, and whose fragment is the decimal of the bitmask it
    is asked to serialize under. *)
Record Probe : Type := {
  hydrated : option (string * Z);
  probe_dirty : bool
}.

#[export] Instance probe : Relation Probe := {|
  from_json := fun json_struct flags r =>
    {| hydrated := Some (json_struct, flags); probe_dirty := probe_dirty r |};
  to_json := fun flags _ => show_Z flags;
  rel_is_dirty := probe_dirty;
  rel_clean := fun r => {| hydrated := hydrated r; probe_dirty := false |}
|}.

End Sample.

(* ===================================================================== *)
(** ** The overloads a statement ranges over *)
(* ===================================================================== *)

(** The three typed [get] overloads on a cell: the template on [Field<T>],
    the one on [Field<std::time_t>] and the one on [Primary]. *)
Inductive typed_get `{Json.Service} `{Field.TimeFormat}
  : forall T : Type, (string -> Mapper.t -> Action (Field.t T) unit) -> Prop :=
| get_of_field T `{Field.Scalar T} : typed_get T Mapper.get_field
| get_of_time : typed_get Z Mapper.get_time
| get_of_primary : typed_get Z Mapper.get_primary.

(** The two typed [set] overloads gated by the dirty flag: the template on
    [Field<T>] and the one on [Field<std::time_t>]. *)
Inductive field_set `{Field.TimeFormat}
  : forall T : Type, (string -> Action (Mapper.t * Field.t T) unit) -> Prop :=
| set_of_field T `{Field.Scalar T} : field_set T Mapper.set_field
| set_of_time : field_set Z Mapper.set_time.

(** A relation [set] is the [HasOne] or the [HasMany] overload. *)
Inductive relation_set {R : Type} `{Relation R}
  : (string -> Action (Mapper.t * R) unit) -> Prop :=
| set_of_has_one : relation_set Mapper.set_has_one
| set_of_has_many : relation_set Mapper.set_has_many.

Inductive relation_get `{Json.Service} {R : Type} `{Relation R}
  : (string -> Mapper.t -> Action R unit) -> Prop :=
| get_of_has_one : relation_get Mapper.get_has_one
| get_of_has_many : relation_get Mapper.get_has_many.

(* ===================================================================== *)
(** ** Further vocabulary for passes *)
(* ===================================================================== *)

(** The six enumerators of [enum MapperConfig]. *)
Definition MapperConfig : list Z :=
  [Mapper.IGNORE_MISSING_FIELDS; Mapper.INCLUDE_PRIMARY_KEY;
   Mapper.IGNORE_DIRTY_FLAG; Mapper.TOUCH_FIELDS; Mapper.KEEP_FIELDS_DIRTY;
   Mapper.OUTPUT_SINGLE_FIELD].

Definition is_set_flags (c : Call) : bool :=
  match c with SetFlags _ => true | _ => false end.

(** A relation [set] call; the other calls hand no bitmask on. *)
Definition is_relation (c : Call) : bool :=
  match c with SetHasOne _ _ | SetHasMany _ _ => true | _ => false end.

(** The statement of what a [set] call adds to a document that has its
    wrapper: the key and the value, or nothing when the call is skipped. *)
Definition member_tokens `{Field.TimeFormat} (flags : Z) (c : Call)
  : list Json.Token :=
  match call_key c, value_tokens flags c with
  | Some key, tok :: toks => Json.Key key :: tok :: toks
  | _, _ => []
  end.

(** Two mappers a pass cannot tell apart by its output: the same emitter
    and the same configuration, whatever their parsers hold. *)
Definition same_writer (m1 m2 : Mapper.t) : Prop :=
  Mapper.emitter_ m1 = Mapper.emitter_ m2 /\
  Mapper.flags_ m1 = Mapper.flags_ m2 /\
  Mapper.field_filter_ m1 = Mapper.field_filter_ m2.

(** The three typed [set] overloads on a cell: the template on [Field<T>],
    the one on [Field<std::time_t>] and the one on [Primary]. *)
Inductive typed_set `{Field.TimeFormat}
  : forall T : Type, (string -> Action (Mapper.t * Field.t T) unit) -> Prop :=
| typed_set_of_field T `{Field.Scalar T} : typed_set T Mapper.set_field
| typed_set_of_time : typed_set Z Mapper.set_time
| typed_set_of_primary : typed_set Z Mapper.set_primary.

(* ===================================================================== *)
(** ** Flags *)
(* ===================================================================== *)

(** The test of a one-bit flag reads that bit. *)
Lemma has_flag_testbit (flags n : Z) :
  0 <= n -> Mapper.has_flag flags (2 ^ n) = Z.testbit flags n.
Proof.
  intros Hn. unfold Mapper.has_flag.
  destruct (Z.testbit flags n) eqn:Hbit.
  - apply Z.eqb_eq, Z.bits_inj'. intros i Hi.
    rewrite Z.land_spec, Z.pow2_bits_eqb by assumption.
    destruct (Z.eqb_spec n i) as [->|_].
    + now rewrite Hbit.
    + apply andb_false_r.
  - apply Z.eqb_neq. intros Heq.
    assert (Hn' : Z.testbit (Z.land flags (2 ^ n)) n = true)
      by (rewrite Heq; now apply Z.pow2_bits_true).
    rewrite Z.land_spec, Hbit in Hn'. discriminate.
Qed.

Lemma ignore_missing_fields_bit flags :
  Mapper.has_flag flags Mapper.IGNORE_MISSING_FIELDS = Z.testbit flags 0.
Proof. apply (has_flag_testbit flags 0). lia. Qed.

Lemma include_primary_key_bit flags :
  Mapper.has_flag flags Mapper.INCLUDE_PRIMARY_KEY = Z.testbit flags 1.
Proof. apply (has_flag_testbit flags 1). lia. Qed.

Lemma ignore_dirty_flag_bit flags :
  Mapper.has_flag flags Mapper.IGNORE_DIRTY_FLAG = Z.testbit flags 2.
Proof. apply (has_flag_testbit flags 2). lia. Qed.

Lemma touch_fields_bit flags :
  Mapper.has_flag flags Mapper.TOUCH_FIELDS = Z.testbit flags 3.
Proof. apply (has_flag_testbit flags 3). lia. Qed.

Lemma keep_fields_dirty_bit flags :
  Mapper.has_flag flags Mapper.KEEP_FIELDS_DIRTY = Z.testbit flags 4.
Proof. apply (has_flag_testbit flags 4). lia. Qed.

Lemma output_single_field_bit flags :
  Mapper.has_flag flags Mapper.OUTPUT_SINGLE_FIELD = Z.testbit flags 5.
Proof. apply (has_flag_testbit flags 5). lia. Qed.

(* ===================================================================== *)
(** ** Typed get *)
(* ===================================================================== *)

Ltac unfold_action :=
  unfold outcome, final, raised, bind, when, lift, read, modify, ret, throw,
    on_fst, on_snd, Json.not_found, id.

Ltac unfold_get :=
  unfold Mapper.get_field, Mapper.get_time, Mapper.get_primary,
    Mapper.should_ignore_missing_fields, Mapper.should_touch_fields,
    Json.exists_, Json.find;
  unfold_action.

(** The three overloads have one body up to the conversion of the node: a
    present key clears or sets the cell (dirty), an absent key throws or
    does nothing, and a returning call ends with the touch. *)
Lemma typed_get_cases `{Json.Service} `{Field.TimeFormat} T get :
  typed_get T get ->
  exists conv : Json.Node -> T,
  forall key m (attr : Field.t T),
    get key m attr =
      match Mapper.parser_ m !! key with
      | Some node =>
          let attr' :=
            if Json.is_null node then Field.clear true attr
            else Field.set (conv node) true attr in
          (Returned tt,
           if Mapper.has_flag (Mapper.flags_ m) Mapper.TOUCH_FIELDS
           then Field.touch attr' else attr')
      | None =>
          if Mapper.has_flag (Mapper.flags_ m) Mapper.IGNORE_MISSING_FIELDS
          then (Returned tt,
                if Mapper.has_flag (Mapper.flags_ m) Mapper.TOUCH_FIELDS
                then Field.touch attr else attr)
          else (Thrown (NotFound key), attr)
      end.
Proof.
  intros Hget.
  destruct Hget;
    [ exists Field.from_node
    | exists (fun node => Field.from_iso8601 (Json.to_string node))
    | exists Json.to_int ];
    intros key m attr; unfold_get;
    (destruct (Mapper.parser_ m !! key) as [node|];
     [destruct (Json.is_null node)|];
     destruct (Mapper.has_flag (Mapper.flags_ m) Mapper.IGNORE_MISSING_FIELDS);
     destruct (Mapper.has_flag (Mapper.flags_ m) Mapper.TOUCH_FIELDS);
     reflexivity).
Qed.

(** C2. A typed scalar, timestamp or primary-key get raises field-not-found
    exactly when the key is absent from the document and
    ignore-missing-fields is not set, and raises nothing else; when the key
    is absent and ignore-missing-fields is set, the get returns and leaves
    the value and the null flag of the cell as they were, and its dirty
    flag too unless touch-fields forces it. *)
Theorem get_raises_not_found_iff_missing `{Json.Service} `{Field.TimeFormat} T get :
  typed_get T get ->
  forall key m (attr : Field.t T),
    let r := get key m attr in
    (raised (outcome r) (NotFound key) <->
       Mapper.parser_ m !! key = None /\
       Mapper.has_flag (Mapper.flags_ m) Mapper.IGNORE_MISSING_FIELDS = false) /\
    (succeeded (outcome r) = false -> raised (outcome r) (NotFound key)) /\
    (Mapper.parser_ m !! key = None ->
     Mapper.has_flag (Mapper.flags_ m) Mapper.IGNORE_MISSING_FIELDS = true ->
     outcome r = Returned tt /\
     Field.value (final r) = Field.value attr /\
     Field.is_null (final r) = Field.is_null attr /\
     Field.is_dirty (final r) =
       Mapper.has_flag (Mapper.flags_ m) Mapper.TOUCH_FIELDS || Field.is_dirty attr).
Proof.
  intros Hget key m attr r. subst r.
  destruct (typed_get_cases T get Hget) as [conv Hcases]. rewrite Hcases.
  unfold outcome, final, raised.
  destruct (Mapper.parser_ m !! key) as [node|]; simpl.
  - repeat split; try discriminate; intros [? ?]; discriminate.
  - destruct (Mapper.has_flag (Mapper.flags_ m) Mapper.IGNORE_MISSING_FIELDS); simpl.
    + repeat split; try discriminate; try (intros [? ?]; discriminate);
        destruct (Mapper.has_flag (Mapper.flags_ m) Mapper.TOUCH_FIELDS);
        reflexivity.
    + repeat split; try discriminate; reflexivity.
Qed.

(** C10. Two mappers over the same document whose bitmasks agree on the
    ignore-missing-fields and touch-fields bits, and differ in any way on
    the other bits, give the same result on every typed scalar, timestamp or
    primary-key get: the same return or error and the same final cell. *)
Theorem get_ignores_serialize_flags `{Json.Service} `{Field.TimeFormat} T get :
  typed_get T get ->
  forall key m1 m2 (attr : Field.t T),
    Mapper.parser_ m1 = Mapper.parser_ m2 ->
    Z.testbit (Mapper.flags_ m1) 0 = Z.testbit (Mapper.flags_ m2) 0 ->
    Z.testbit (Mapper.flags_ m1) 3 = Z.testbit (Mapper.flags_ m2) 3 ->
    get key m1 attr = get key m2 attr.
Proof.
  intros Hget key m1 m2 attr Hdoc Hmissing Htouch.
  destruct (typed_get_cases T get Hget) as [conv Hcases].
  rewrite !Hcases, Hdoc.
  rewrite !ignore_missing_fields_bit, !touch_fields_bit, Hmissing, Htouch.
  reflexivity.
Qed.

(** C7, amended. With touch-fields set, a typed scalar, timestamp or
    primary-key get that returns leaves the dirty flag of the cell true,
    whether the key was present with a value, present and null, or absent
    under ignore-missing-fields; the get returns in exactly these cases.
    When the key is absent and ignore-missing-fields is not set, the get
    raises field-not-found before the touch and the cell is as it was. *)
Theorem touch_fields_dirties_on_return `{Json.Service} `{Field.TimeFormat} T get :
  typed_get T get ->
  forall key m (attr : Field.t T),
    Mapper.has_flag (Mapper.flags_ m) Mapper.TOUCH_FIELDS = true ->
    let r := get key m attr in
    (outcome r = Returned tt -> Field.is_dirty (final r) = true) /\
    (outcome r = Returned tt <->
       is_Some (Mapper.parser_ m !! key) \/
       Mapper.has_flag (Mapper.flags_ m) Mapper.IGNORE_MISSING_FIELDS = true) /\
    (Mapper.parser_ m !! key = None ->
     Mapper.has_flag (Mapper.flags_ m) Mapper.IGNORE_MISSING_FIELDS = false ->
     r = (Thrown (NotFound key), attr)).
Proof.
  intros Hget key m attr Htouch r. subst r.
  destruct (typed_get_cases T get Hget) as [conv Hcases].
  rewrite Hcases, Htouch. unfold outcome, final.
  destruct (Mapper.parser_ m !! key) as [node|] eqn:Hkey; simpl.
  - repeat split; eauto; discriminate.
  - destruct (Mapper.has_flag (Mapper.flags_ m) Mapper.IGNORE_MISSING_FIELDS);
      simpl; repeat split; eauto; try discriminate.
    intros [[? ?]|?]; discriminate.
Qed.

(* ===================================================================== *)
(** ** Typed set *)
(* ===================================================================== *)

Ltac unfold_set :=
  unfold Mapper.set_field, Mapper.set_time, Mapper.set_primary,
    Mapper.set_has_one, Mapper.set_has_many, Mapper.set, Mapper.dump,
    Mapper.emit_attr, Mapper.emit_time, Mapper.emit_primary, Mapper.emit,
    Mapper.emitter_call, Mapper.should_output_single_field,
    Mapper.should_ignore_dirty_flag, Mapper.should_keep_fields_dirty,
    Mapper.should_include_primary_key;
  unfold_action; cbn [fst snd].

(** Case analysis on every flag test and filter test of the goal, one test
    at a time, each decided once for the whole body. *)
Ltac use_flags :=
  repeat match goal with
         | E : Mapper.has_flag _ _ = _ |- _ => rewrite E
         | E : Mapper.filtered_out _ _ = _ |- _ => rewrite E
         end.

Ltac settle := repeat first [progress cbn | progress use_flags].

Ltac flag_cases :=
  repeat (settle;
          match goal with
          | |- context [Mapper.has_flag (Mapper.flags_ ?m) ?c] =>
              destruct (Mapper.has_flag (Mapper.flags_ m) c) eqn:?
          | |- context [Mapper.filtered_out ?m ?k] =>
              destruct (Mapper.filtered_out m k) eqn:?
          end);
  settle.

(** C1. Under a bitmask without ignore-dirty-flag, the generic and the
    timestamp set on a cell that is not dirty return at once, for every key:
    the mapper, hence its emitter, and the cell are as before the call, and
    a dump after the call is the dump without it, so neither a key nor a
    value of the field is in the document. *)
Theorem set_skips_clean_cell `{Field.TimeFormat} T set :
  field_set T set ->
  forall key m (attr : Field.t T),
    Mapper.has_flag (Mapper.flags_ m) Mapper.IGNORE_DIRTY_FLAG = false ->
    Field.is_dirty attr = false ->
    set key (m, attr) = (Returned tt, (m, attr)) /\
    Mapper.emitter_ (fst (final (set key (m, attr)))) = Mapper.emitter_ m /\
    Mapper.dump (fst (final (set key (m, attr)))) = Mapper.dump m.
Proof.
  intros Hset key m attr Hflag Hclean.
  assert (Hnoop : set key (m, attr) = (Returned tt, (m, attr))).
  { destruct Hset; unfold_set; rewrite Hflag, Hclean;
      destruct (Mapper.has_flag (Mapper.flags_ m) Mapper.OUTPUT_SINGLE_FIELD
                && Mapper.filtered_out m key); reflexivity. }
  rewrite Hnoop. repeat split; reflexivity.
Qed.

Lemma filtered_out_false m key :
  Mapper.filtered_out m key = false <-> Mapper.field_filter_ m = key.
Proof.
  unfold Mapper.filtered_out.
  destruct (String.eqb_spec (Mapper.field_filter_ m) key); simpl; split;
    congruence.
Qed.

Lemma filtered_out_true m key :
  Mapper.filtered_out m key = true <-> Mapper.field_filter_ m <> key.
Proof.
  unfold Mapper.filtered_out.
  destruct (String.eqb_spec (Mapper.field_filter_ m) key); simpl; split;
    congruence.
Qed.

(** An emitter that received a call is not the emitter before the call. *)
Lemma emitter_grows (e : Json.Emitter) (toks : list Json.Token) :
  toks <> [] -> e ++ toks <> e.
Proof.
  intros Hne Heq. apply Hne.
  apply (app_inv_head e). now rewrite app_nil_r.
Qed.

(** The primary-key set, case by case: it returns at once when the filter
    of single-field mode names another key, when include-primary-key is not
    set and when the cell is null; otherwise it emits the key (not in
    single-field mode) and the integer, and cleans the cell unless
    keep-fields-dirty is set. *)
Lemma set_primary_cases key m (attr : Primary) :
  Mapper.set_primary key (m, attr) =
    if Mapper.has_flag (Mapper.flags_ m) Mapper.OUTPUT_SINGLE_FIELD
       && Mapper.filtered_out m key
    then (Returned tt, (m, attr))
    else if negb (Mapper.has_flag (Mapper.flags_ m) Mapper.INCLUDE_PRIMARY_KEY)
    then (Returned tt, (m, attr))
    else match Field.value attr with
         | None => (Returned tt, (m, attr))
         | Some v =>
             (Returned tt,
              (Mapper.Build
                 (Mapper.emitter_ m ++
                    (if Mapper.has_flag (Mapper.flags_ m) Mapper.OUTPUT_SINGLE_FIELD
                     then [] else [Json.Key key]) ++
                    [Json.Scalar (Json.VInt v)])
                 (Mapper.parser_ m) (Mapper.flags_ m) (Mapper.field_filter_ m),
               if Mapper.has_flag (Mapper.flags_ m) Mapper.KEEP_FIELDS_DIRTY
               then attr else Field.clean attr))
         end.
Proof.
  unfold_set. unfold Field.is_null, Json.emit.
  destruct (Mapper.has_flag (Mapper.flags_ m) Mapper.OUTPUT_SINGLE_FIELD);
    destruct (Mapper.filtered_out m key);
    destruct (Mapper.has_flag (Mapper.flags_ m) Mapper.INCLUDE_PRIMARY_KEY);
    destruct (Field.value attr) as [v|];
    destruct (Mapper.has_flag (Mapper.flags_ m) Mapper.KEEP_FIELDS_DIRTY);
    cbn; rewrite <- ?app_assoc; reflexivity.
Qed.

(** C4, amended. The primary-key set emits something exactly when
    include-primary-key is set, the cell is not null and the single-field
    filter, if active, names the key. What it emits is then the key
    followed by the integer of the cell outside single-field mode, and the
    integer alone, with no key, in single-field mode; in every other case
    the call changes nothing. The dirty flag of the cell has no part in
    it. *)
Theorem primary_set_emits_iff_included_and_not_null key m (attr : Primary) :
  let m' := fst (final (Mapper.set_primary key (m, attr))) in
  let single := Mapper.has_flag (Mapper.flags_ m) Mapper.OUTPUT_SINGLE_FIELD in
  let include := Mapper.has_flag (Mapper.flags_ m) Mapper.INCLUDE_PRIMARY_KEY in
  (Mapper.emitter_ m' <> Mapper.emitter_ m <->
     include = true /\ Field.is_null attr = false /\
     (single = true -> Mapper.field_filter_ m = key)) /\
  (forall v, include = true -> Field.value attr = Some v -> single = false ->
     Mapper.emitter_ m' =
       Mapper.emitter_ m ++ [Json.Key key; Json.Scalar (Json.VInt v)]) /\
  (forall v, include = true -> Field.value attr = Some v -> single = true ->
     Mapper.field_filter_ m = key ->
     Mapper.emitter_ m' = Mapper.emitter_ m ++ [Json.Scalar (Json.VInt v)]) /\
  (~ (include = true /\ Field.is_null attr = false /\
      (single = true -> Mapper.field_filter_ m = key)) ->
     Mapper.set_primary key (m, attr) = (Returned tt, (m, attr))) /\
  (forall d,
     Mapper.emitter_
       (fst (final (Mapper.set_primary key (m, Field.Build (Field.value attr) d)))) =
     Mapper.emitter_ m').
Proof.
  intros m' single include. subst m' single include.
  rewrite set_primary_cases. unfold final, Field.is_null.
  split; [split | split; [| split; [| split]]].
  - (* something was emitted: the three conditions hold *)
    destruct (Mapper.filtered_out m key) eqn:Hfilter;
      [apply filtered_out_true in Hfilter | apply filtered_out_false in Hfilter];
      destruct (Mapper.has_flag (Mapper.flags_ m) Mapper.OUTPUT_SINGLE_FIELD);
      destruct (Mapper.has_flag (Mapper.flags_ m) Mapper.INCLUDE_PRIMARY_KEY);
      destruct (Field.value attr); cbn; intros Hne; repeat split;
      congruence.
  - (* the three conditions hold: something was emitted *)
    intros (Hinclude & Hvalue & Hfilter). rewrite Hinclude.
    destruct (Field.value attr) as [v|]; [|discriminate].
    destruct (Mapper.has_flag (Mapper.flags_ m) Mapper.OUTPUT_SINGLE_FIELD).
    + apply filtered_out_false in Hfilter; [|reflexivity]. rewrite Hfilter.
      cbn. apply emitter_grows. discriminate.
    + cbn. apply emitter_grows. discriminate.
  - intros v Hinclude Hvalue Hsingle. rewrite Hinclude, Hvalue, Hsingle.
    reflexivity.
  - intros v Hinclude Hvalue Hsingle Hfilter.
    apply filtered_out_false in Hfilter.
    rewrite Hinclude, Hvalue, Hsingle, Hfilter. reflexivity.
  - intros Hskip.
    destruct (Mapper.filtered_out m key) eqn:Hfilter;
      [apply filtered_out_true in Hfilter | apply filtered_out_false in Hfilter];
      destruct (Mapper.has_flag (Mapper.flags_ m) Mapper.OUTPUT_SINGLE_FIELD);
      destruct (Mapper.has_flag (Mapper.flags_ m) Mapper.INCLUDE_PRIMARY_KEY);
      destruct (Field.value attr); cbn; try reflexivity;
      exfalso; apply Hskip; repeat split; congruence.
  - intros d. rewrite set_primary_cases. cbn [Field.value].
    destruct (Mapper.has_flag (Mapper.flags_ m) Mapper.OUTPUT_SINGLE_FIELD
              && Mapper.filtered_out m key);
      destruct (Mapper.has_flag (Mapper.flags_ m) Mapper.INCLUDE_PRIMARY_KEY);
      destruct (Field.value attr); reflexivity.
Qed.

(** C6, amended. When the primary-key set writes the cell
    (include-primary-key set, cell not null, key not filtered out), it
    cleans the cell exactly when keep-fields-dirty is not set: under
    keep-fields-dirty the cell, and so its dirty flag, stays as it was. *)
Theorem primary_set_cleans_unless_kept key m (attr : Primary) :
  Mapper.has_flag (Mapper.flags_ m) Mapper.INCLUDE_PRIMARY_KEY = true ->
  Field.is_null attr = false ->
  (Mapper.has_flag (Mapper.flags_ m) Mapper.OUTPUT_SINGLE_FIELD = true ->
   Mapper.field_filter_ m = key) ->
  let attr' := snd (final (Mapper.set_primary key (m, attr))) in
  attr' = (if Mapper.has_flag (Mapper.flags_ m) Mapper.KEEP_FIELDS_DIRTY
           then attr else Field.clean attr) /\
  Field.is_dirty attr' =
    Mapper.has_flag (Mapper.flags_ m) Mapper.KEEP_FIELDS_DIRTY
    && Field.is_dirty attr.
Proof.
  intros Hinclude Hvalue Hfilter attr'. subst attr'.
  rewrite set_primary_cases, Hinclude. unfold final.
  unfold Field.is_null in Hvalue.
  destruct (Field.value attr) as [v|]; [|discriminate].
  assert (Hpass : Mapper.has_flag (Mapper.flags_ m) Mapper.OUTPUT_SINGLE_FIELD
                  && Mapper.filtered_out m key = false).
  { destruct (Mapper.has_flag (Mapper.flags_ m) Mapper.OUTPUT_SINGLE_FIELD);
      [|reflexivity].
    apply filtered_out_false, Hfilter. reflexivity. }
  rewrite Hpass. cbn.
  destruct (Mapper.has_flag (Mapper.flags_ m) Mapper.KEEP_FIELDS_DIRTY);
    split; reflexivity.
Qed.

(** The generic and the timestamp set have one body up to the token of the
    value: skipped by the single-field filter, skipped on a clean cell
    unless ignore-dirty-flag is set, otherwise the key (not in single-field
    mode), then null or the value, then the cleaning unless
    keep-fields-dirty is set. *)
Lemma field_set_cases `{Field.TimeFormat} T set :
  field_set T set ->
  exists token : T -> Json.Token,
  (forall v, is_key (token v) = false /\ is_open (token v) = false /\
             is_close (token v) = false) /\
  forall key m (attr : Field.t T),
    set key (m, attr) =
      if Mapper.has_flag (Mapper.flags_ m) Mapper.OUTPUT_SINGLE_FIELD
         && Mapper.filtered_out m key
      then (Returned tt, (m, attr))
      else if negb (Mapper.has_flag (Mapper.flags_ m) Mapper.IGNORE_DIRTY_FLAG)
              && negb (Field.is_dirty attr)
      then (Returned tt, (m, attr))
      else
        (Returned tt,
         (Mapper.Build
            (Mapper.emitter_ m ++
               (if Mapper.has_flag (Mapper.flags_ m) Mapper.OUTPUT_SINGLE_FIELD
                then [] else [Json.Key key]) ++
               [match Field.value attr with
                | None => Json.Null
                | Some v => token v
                end])
            (Mapper.parser_ m) (Mapper.flags_ m) (Mapper.field_filter_ m),
          if Mapper.has_flag (Mapper.flags_ m) Mapper.KEEP_FIELDS_DIRTY
          then attr else Field.clean attr)).
Proof.
  intros Hset.
  destruct Hset;
    [ exists (fun v => Json.Scalar (Field.to_value v))
    | exists (fun v => Json.Scalar (Json.VString (Field.to_iso8601 true v))) ];
    (split; [intros v; repeat split |]);
    intros key m attr; unfold_set; unfold Field.is_null, Json.emit;
    destruct (Mapper.has_flag (Mapper.flags_ m) Mapper.OUTPUT_SINGLE_FIELD);
    destruct (Mapper.filtered_out m key);
    destruct (Mapper.has_flag (Mapper.flags_ m) Mapper.IGNORE_DIRTY_FLAG);
    destruct (Field.is_dirty attr);
    destruct (Field.value attr) as [v|];
    destruct (Mapper.has_flag (Mapper.flags_ m) Mapper.KEEP_FIELDS_DIRTY);
    cbn; rewrite <- ?app_assoc; reflexivity.
Qed.

(** C8, amended. A generic or timestamp get on a document that binds the
    key to null returns with the cell null and dirty; the generic or
    timestamp set on that cell under ignore-dirty-flag then emits the key
    bound to null, provided output-single-field is not set. In single-field
    mode the key is never emitted: the set emits the bare null when the
    filter names the key and nothing otherwise. The primary-key get on
    that document returns with the cell null as well, and the primary-key
    set never emits a null cell: on it the set changes nothing, whatever
    the bitmask of the mapper it is called on. *)
Theorem null_round_trip `{Json.Service} `{Field.TimeFormat} T get set :
  typed_get T get ->
  field_set T set ->
  forall key reader writer (attr : Field.t T),
    Mapper.parser_ reader !! key = Some Json.JNull ->
    Mapper.has_flag (Mapper.flags_ writer) Mapper.IGNORE_DIRTY_FLAG = true ->
    let r := get key reader attr in
    let writer' := fst (final (set key (writer, final r))) in
    let single :=
      Mapper.has_flag (Mapper.flags_ writer) Mapper.OUTPUT_SINGLE_FIELD in
    outcome r = Returned tt /\
    Field.is_null (final r) = true /\
    Field.is_dirty (final r) = true /\
    (single = false ->
     Mapper.emitter_ writer' =
       Mapper.emitter_ writer ++ [Json.Key key; Json.Null]) /\
    (single = true -> Mapper.field_filter_ writer = key ->
     Mapper.emitter_ writer' = Mapper.emitter_ writer ++ [Json.Null]) /\
    (single = true -> Mapper.field_filter_ writer <> key ->
     Mapper.emitter_ writer' = Mapper.emitter_ writer) /\
    (forall (id : Primary) (any : Mapper.t),
       let p := Mapper.get_primary key reader id in
       outcome p = Returned tt /\
       Field.is_null (final p) = true /\
       Mapper.set_primary key (any, final p) = (Returned tt, (any, final p))) /\
    (forall (id : Primary) (any : Mapper.t) (other : string),
       Field.is_null id = true ->
       Mapper.set_primary other (any, id) = (Returned tt, (any, id))).
Proof.
  intros Hget Hset key reader writer attr Hnull Hignore r writer' single.
  subst r writer' single.
  destruct (typed_get_cases T get Hget) as [conv Hgetc].
  destruct (field_set_cases T set Hset) as (token & _ & Hsetc).
  assert (Hskip : forall (id : Primary) (any : Mapper.t) (other : string),
    Field.is_null id = true ->
    Mapper.set_primary other (any, id) = (Returned tt, (any, id))).
  { intros id any other Hid. rewrite set_primary_cases.
    unfold Field.is_null in Hid.
    destruct (Field.value id); [discriminate|].
    destruct (_ && _); [reflexivity|]. now destruct (negb _). }
  rewrite Hgetc, Hnull. cbn [Json.is_null]. unfold outcome, final.
  cbn [fst snd]. rewrite Hsetc, Hignore. cbn [negb andb].
  assert (Hcell :
    Field.value (if Mapper.has_flag (Mapper.flags_ reader) Mapper.TOUCH_FIELDS
                 then Field.touch (Field.clear true attr)
                 else Field.clear true attr) = None)
    by (destruct (Mapper.has_flag (Mapper.flags_ reader) Mapper.TOUCH_FIELDS);
        reflexivity).
  unfold Field.is_null. rewrite Hcell.
  split; [reflexivity|]. split; [reflexivity|].
  split; [destruct (Mapper.has_flag (Mapper.flags_ reader) Mapper.TOUCH_FIELDS);
          reflexivity|].
  split; [|split; [|split; [|split]]].
  - intros ->. reflexivity.
  - intros -> Hfilter. apply filtered_out_false in Hfilter. rewrite Hfilter.
    reflexivity.
  - intros -> Hfilter. apply filtered_out_true in Hfilter. rewrite Hfilter.
    reflexivity.
  - intros id any.
    destruct (typed_get_cases Z Mapper.get_primary get_of_primary)
      as [convp Hgetp].
    rewrite Hgetp, Hnull. cbn [Json.is_null fst snd].
    assert (Hid :
      Field.is_null
        (if Mapper.has_flag (Mapper.flags_ reader) Mapper.TOUCH_FIELDS
         then Field.touch (Field.clear true id)
         else Field.clear true id) = true)
      by (destruct (Mapper.has_flag (Mapper.flags_ reader)
                      Mapper.TOUCH_FIELDS); reflexivity).
    split; [reflexivity|]. split; [exact Hid|]. apply Hskip, Hid.
  - exact Hskip.
Qed.

(* ===================================================================== *)
(** ** Relations *)
(* ===================================================================== *)

Lemma from_json_flags_bits m n :
  Z.testbit (Mapper.from_json_flags m) n =
    if n =? 1 then true else Z.testbit (Mapper.flags_ m) n.
Proof.
  unfold Mapper.from_json_flags.
  change Mapper.INCLUDE_PRIMARY_KEY with (2 ^ 1).
  rewrite Z.lor_spec, Z.pow2_bits_eqb by lia.
  rewrite (Z.eqb_sym 1 n).
  destruct (n =? 1); [apply orb_true_r | apply orb_false_r].
Qed.

Lemma to_json_flags_bits m n :
  0 <= n ->
  Z.testbit (Mapper.to_json_flags m) n =
    if n =? 1 then true
    else if n =? 5 then false
    else Z.testbit (Mapper.flags_ m) n.
Proof.
  intros Hn. unfold Mapper.to_json_flags.
  rewrite Z.land_spec. fold (Mapper.from_json_flags m).
  rewrite from_json_flags_bits, Z.lnot_spec by assumption.
  change Mapper.OUTPUT_SINGLE_FIELD with (2 ^ 5).
  rewrite Z.pow2_bits_eqb by lia. rewrite (Z.eqb_sym 5 n).
  destruct (Z.eqb_spec n 1) as [->|_]; [reflexivity|].
  destruct (n =? 5); [apply andb_false_r | apply andb_true_r].
Qed.

(** The relation set, has-one or has-many, case by case. *)
Lemma relation_set_cases {R} `{Relation R} set :
  relation_set set ->
  forall key m (attr : R),
    set key (m, attr) =
      if Mapper.has_flag (Mapper.flags_ m) Mapper.OUTPUT_SINGLE_FIELD
         && Mapper.filtered_out m key
      then (Returned tt, (m, attr))
      else if negb (Mapper.has_flag (Mapper.flags_ m) Mapper.IGNORE_DIRTY_FLAG)
              && negb (rel_is_dirty attr)
      then (Returned tt, (m, attr))
      else (Returned tt,
            (final (Mapper.set key (to_json (Mapper.to_json_flags m) attr) m),
             if Mapper.has_flag (Mapper.flags_ m) Mapper.KEEP_FIELDS_DIRTY
             then attr else rel_clean attr)).
Proof.
  intros Hset key m attr.
  destruct Hset; unfold_set; destruct (rel_is_dirty attr); flag_cases;
    reflexivity.
Qed.

(** C5. The relation get, has-one or has-many, hydrates the container from
    the fragment at the key with the bitmask of the mapper in which the
    include-primary-key bit is forced on, and the relation set serializes
    the container with that bitmask in which output-single-field is forced
    off as well; every other bit is the one of the mapper. So the bitmask a
    relation receives has include-primary-key set whatever the mapper's
    own. *)
Theorem relation_flags_force_primary_key
    `{Json.Service} {R} `{Relation R} get set :
  relation_get get ->
  relation_set set ->
  forall key m (attr : R),
    (get key m attr =
       match Mapper.parser_ m !! key with
       | Some node =>
           if Json.node_empty node then (Returned tt, attr)
           else (Returned tt,
                 from_json (Json.dump_node node) (Mapper.from_json_flags m) attr)
       | None => (Returned tt, attr)
       end) /\
    (set key (m, attr) =
       if Mapper.has_flag (Mapper.flags_ m) Mapper.OUTPUT_SINGLE_FIELD
          && Mapper.filtered_out m key
       then (Returned tt, (m, attr))
       else if negb (Mapper.has_flag (Mapper.flags_ m) Mapper.IGNORE_DIRTY_FLAG)
               && negb (rel_is_dirty attr)
       then (Returned tt, (m, attr))
       else (Returned tt,
             (final (Mapper.set key (to_json (Mapper.to_json_flags m) attr) m),
              if Mapper.has_flag (Mapper.flags_ m) Mapper.KEEP_FIELDS_DIRTY
              then attr else rel_clean attr))) /\
    Mapper.has_flag (Mapper.from_json_flags m) Mapper.INCLUDE_PRIMARY_KEY = true /\
    Mapper.has_flag (Mapper.to_json_flags m) Mapper.INCLUDE_PRIMARY_KEY = true /\
    Mapper.has_flag (Mapper.to_json_flags m) Mapper.OUTPUT_SINGLE_FIELD = false /\
    (forall n, n <> 1 ->
       Z.testbit (Mapper.from_json_flags m) n = Z.testbit (Mapper.flags_ m) n) /\
    (forall n, 0 <= n -> n <> 1 -> n <> 5 ->
       Z.testbit (Mapper.to_json_flags m) n = Z.testbit (Mapper.flags_ m) n).
Proof.
  intros Hget Hset key m attr.
  split; [|split; [|split; [|split; [|split; [|split]]]]].
  - destruct Hget;
      unfold Mapper.get_has_one, Mapper.get_has_many, Mapper.get, Json.empty,
        Json.find; unfold_action;
      (destruct (Mapper.parser_ m !! key) as [node|];
       [destruct (Json.node_empty node)|]; reflexivity).
  - apply relation_set_cases, Hset.
  - rewrite include_primary_key_bit. apply from_json_flags_bits.
  - rewrite include_primary_key_bit. now rewrite to_json_flags_bits.
  - rewrite output_single_field_bit. now rewrite to_json_flags_bits.
  - intros n Hn. rewrite from_json_flags_bits.
    destruct (Z.eqb_spec n 1); [contradiction | reflexivity].
  - intros n Hpos Hn1 Hn5. rewrite to_json_flags_bits by assumption.
    destruct (Z.eqb_spec n 1); [contradiction|].
    destruct (Z.eqb_spec n 5); [contradiction | reflexivity].
Qed.

(* ===================================================================== *)
(** ** Serialization passes *)
(* ===================================================================== *)

Lemma appended_nil m : appended [] m = m.
Proof. destruct m. unfold appended. cbn. now rewrite app_nil_r. Qed.

Lemma appended_appended toks1 toks2 m :
  appended toks2 (appended toks1 m) = appended (toks1 ++ toks2) m.
Proof. unfold appended. cbn. now rewrite app_assoc. Qed.

(** What a [set] call does to the mapper: nothing when the single-field
    filter names another key or when the call is skipped for its own
    reason; otherwise the emitter receives the key (not in single-field
    mode) and the value. *)
Lemma call_writes `{Field.TimeFormat} c m key :
  call_key c = Some key ->
  call c m =
    appended
      (if Mapper.has_flag (Mapper.flags_ m) Mapper.OUTPUT_SINGLE_FIELD
          && Mapper.filtered_out m key
       then []
       else match value_tokens (Mapper.flags_ m) c with
            | [] => []
            | toks =>
                (if Mapper.has_flag (Mapper.flags_ m) Mapper.OUTPUT_SINGLE_FIELD
                 then [] else [Json.Key key]) ++ toks
            end) m.
Proof.
  destruct c as [k json|T HT k attr|k attr|k attr|R HR k attr|R HR k attr|f|f];
    cbn [call_key]; intros [= <-]; cbn [call value_tokens].
  - unfold_set. flag_cases; rewrite ?appended_nil;
      unfold appended, Json.emit; cbn; rewrite <- ?app_assoc; reflexivity.
  - unfold_set. unfold Field.is_null, Field.is_dirty.
    destruct attr as [[v|] []]; flag_cases; rewrite ?appended_nil;
      unfold appended, Json.emit; cbn; rewrite <- ?app_assoc; reflexivity.
  - unfold_set. unfold Field.is_null, Field.is_dirty.
    destruct attr as [[v|] []]; flag_cases; rewrite ?appended_nil;
      unfold appended, Json.emit; cbn; rewrite <- ?app_assoc; reflexivity.
  - unfold_set. unfold Field.is_null.
    destruct attr as [[v|] d]; flag_cases; rewrite ?appended_nil;
      unfold appended, Json.emit; cbn; rewrite <- ?app_assoc; reflexivity.
  - unfold_set. destruct (rel_is_dirty attr); flag_cases;
      rewrite ?appended_nil;
      unfold appended, Json.emit; cbn; rewrite <- ?app_assoc; reflexivity.
  - unfold_set. destruct (rel_is_dirty attr); flag_cases;
      rewrite ?appended_nil;
      unfold appended, Json.emit; cbn; rewrite <- ?app_assoc; reflexivity.
Qed.

Lemma opens_app e1 e2 : opens (e1 ++ e2) = (opens e1 + opens e2)%nat.
Proof. unfold opens. now rewrite List.filter_app, length_app. Qed.

Lemma closes_app e1 e2 : closes (e1 ++ e2) = (closes e1 + closes e2)%nat.
Proof. unfold closes. now rewrite List.filter_app, length_app. Qed.

(** The value of a call is at most one token, and neither a key nor a
    wrapper call. *)
Lemma value_tokens_plain `{Field.TimeFormat} flags c :
  (length (value_tokens flags c) <= 1)%nat /\
  List.filter is_key (value_tokens flags c) = [] /\
  opens (value_tokens flags c) = 0%nat /\
  closes (value_tokens flags c) = 0%nat.
Proof.
  destruct c as [k json|T HT k attr|k attr|k attr|R HR k attr|R HR k attr|f|f];
    cbn [value_tokens];
    repeat match goal with
           | |- context [if ?b then _ else _] => destruct b
           | |- context [match Field.value ?a with _ => _ end] =>
               destruct (Field.value a)
           end;
    cbn; repeat split; lia.
Qed.

(** No call between construction and [dump] opens or closes the wrapper. *)
Lemma call_keeps_wrappers `{Field.TimeFormat} c m :
  opens (Mapper.emitter_ (call c m)) = opens (Mapper.emitter_ m) /\
  closes (Mapper.emitter_ (call c m)) = closes (Mapper.emitter_ m).
Proof.
  destruct (call_key c) as [key|] eqn:Hkey.
  - rewrite (call_writes c m key Hkey). unfold appended. cbn [Mapper.emitter_].
    rewrite opens_app, closes_app.
    destruct (value_tokens_plain (Mapper.flags_ m) c) as (_ & _ & Hopen & Hclose).
    destruct (Mapper.has_flag (Mapper.flags_ m) Mapper.OUTPUT_SINGLE_FIELD
              && Mapper.filtered_out m key); [cbn; lia|].
    destruct (value_tokens (Mapper.flags_ m) c) as [|tok toks] eqn:Htoks;
      [cbn; lia|].
    rewrite opens_app, closes_app, Hopen, Hclose.
    destruct (Mapper.has_flag (Mapper.flags_ m) Mapper.OUTPUT_SINGLE_FIELD);
      cbn; lia.
  - destruct c; try discriminate; cbn; split; reflexivity.
Qed.

Lemma run_keeps_wrappers `{Field.TimeFormat} calls m :
  opens (Mapper.emitter_ (run calls m)) = opens (Mapper.emitter_ m) /\
  closes (Mapper.emitter_ (run calls m)) = closes (Mapper.emitter_ m).
Proof.
  revert m. induction calls as [|c calls IH]; intros m; cbn [run].
  - split; reflexivity.
  - destruct (IH (call c m)) as [-> ->]. apply call_keeps_wrappers.
Qed.

(** [dump] always returns: the emitter's text, after the closing call
    unless the mapper is in single-field mode at that moment. *)
Lemma dump_cases m :
  Mapper.dump m =
    if Mapper.has_flag (Mapper.flags_ m) Mapper.OUTPUT_SINGLE_FIELD
    then (Returned (Mapper.emitter_ m), m)
    else (Returned (Mapper.emitter_ m ++ [Json.MapClose]),
          appended [Json.MapClose] m).
Proof. unfold_set. flag_cases; reflexivity. Qed.

(** Both constructors open the wrapper unless the bitmask they are given
    has output-single-field. *)
Lemma new_emitter flags :
  Mapper.emitter_ (Mapper.new flags) =
    if Mapper.has_flag flags Mapper.OUTPUT_SINGLE_FIELD then [] else [Json.MapOpen].
Proof.
  unfold Mapper.new, Mapper.should_output_single_field. unfold_action.
  cbn [Mapper.flags_].
  destruct (Mapper.has_flag flags Mapper.OUTPUT_SINGLE_FIELD); reflexivity.
Qed.

Lemma new_flags flags : Mapper.flags_ (Mapper.new flags) = flags.
Proof.
  unfold Mapper.new, Mapper.should_output_single_field. unfold_action.
  cbn [Mapper.flags_].
  destruct (Mapper.has_flag flags Mapper.OUTPUT_SINGLE_FIELD); reflexivity.
Qed.

Lemma new_from_emitter `{Json.Service} json_struct flags :
  Mapper.emitter_ (Mapper.new_from json_struct flags) =
    if Mapper.has_flag flags Mapper.OUTPUT_SINGLE_FIELD then [] else [Json.MapOpen].
Proof.
  unfold Mapper.new_from, Mapper.should_output_single_field. unfold_action.
  cbn [Mapper.flags_ Mapper.emitter_].
  destruct (Mapper.has_flag flags Mapper.OUTPUT_SINGLE_FIELD); reflexivity.
Qed.

(** C9, amended. A pass that constructs a mapper with a bitmask, makes any
    calls and dumps once: the constructor opens the wrapper exactly when the
    bitmask it is given is not in single-field mode, no call in between
    opens or closes, and [dump] returns after closing exactly when the
    bitmask at that moment is not in single-field mode. So the opening and
    the closing are paired, once or not at all, exactly when the
    output-single-field bit at [dump] is the one at construction, as it is
    when [set_flags] is not called or keeps that bit. *)
Theorem wrapper_paired_iff_mode_kept `{Json.Service} `{Field.TimeFormat}
    flags calls m0 :
  m0 = Mapper.new flags \/ (exists text, m0 = Mapper.new_from text flags) ->
  let m := run calls m0 in
  exists out,
    outcome (Mapper.dump m) = Returned out /\
    opens out =
      (if Mapper.has_flag flags Mapper.OUTPUT_SINGLE_FIELD then 0 else 1)%nat /\
    closes out =
      (if Mapper.has_flag (Mapper.flags_ m) Mapper.OUTPUT_SINGLE_FIELD
       then 0 else 1)%nat /\
    (opens out = closes out <->
       Mapper.has_flag (Mapper.flags_ m) Mapper.OUTPUT_SINGLE_FIELD =
       Mapper.has_flag flags Mapper.OUTPUT_SINGLE_FIELD).
Proof.
  intros Hnew m. subst m.
  assert (Hstart :
    Mapper.emitter_ m0 =
      if Mapper.has_flag flags Mapper.OUTPUT_SINGLE_FIELD
      then [] else [Json.MapOpen]).
  { destruct Hnew as [-> | [text ->]];
      [apply new_emitter | apply new_from_emitter]. }
  destruct (run_keeps_wrappers calls m0) as [Hopens Hcloses].
  rewrite Hstart in Hopens, Hcloses.
  rewrite dump_cases.
  destruct (Mapper.has_flag (Mapper.flags_ (run calls m0))
              Mapper.OUTPUT_SINGLE_FIELD);
    eexists; (split; [reflexivity|]); cbn [outcome fst];
    rewrite ?opens_app, ?closes_app, Hopens, Hcloses;
    destruct (Mapper.has_flag flags Mapper.OUTPUT_SINGLE_FIELD);
    cbn; repeat split; congruence || lia.
Qed.

Lemma set_cases key json_struct m :
  Mapper.set key json_struct m =
    if Mapper.has_flag (Mapper.flags_ m) Mapper.OUTPUT_SINGLE_FIELD
       && Mapper.filtered_out m key
    then (Returned tt, m)
    else (Returned tt,
          appended ((if Mapper.has_flag (Mapper.flags_ m) Mapper.OUTPUT_SINGLE_FIELD
                     then [] else [Json.Key key]) ++ [Json.Raw json_struct]) m).
Proof.
  unfold_set. flag_cases; unfold appended, Json.emit; cbn;
    rewrite <- ?app_assoc; reflexivity.
Qed.

Lemma names_filtered_out m c key :
  call_key c = Some key ->
  names (Mapper.field_filter_ m) c = negb (Mapper.filtered_out m key).
Proof.
  intros Hkey. unfold names, Mapper.filtered_out. rewrite Hkey.
  now rewrite negb_involutive.
Qed.

(** In single-field mode a run of [set] calls leaves in the emitter the
    values of the calls that name the filtered key, in order. *)
Lemma run_single_field `{Field.TimeFormat} calls m :
  Mapper.has_flag (Mapper.flags_ m) Mapper.OUTPUT_SINGLE_FIELD = true ->
  Forall (fun c => is_set c = true) calls ->
  run calls m =
    appended
      (concat (map (value_tokens (Mapper.flags_ m))
                 (List.filter (names (Mapper.field_filter_ m)) calls))) m.
Proof.
  intros Hsingle Hsets. revert m Hsingle.
  induction Hsets as [|c calls Hc _ IH]; intros m Hsingle; cbn [run].
  - cbn. now rewrite appended_nil.
  - unfold is_set in Hc. destruct (call_key c) as [key|] eqn:Hkey;
      [|discriminate].
    rewrite (call_writes c m key Hkey), Hsingle. cbn [andb List.filter].
    rewrite (names_filtered_out m c key Hkey).
    set (toks := if Mapper.filtered_out m key then []
                 else match value_tokens (Mapper.flags_ m) c with
                      | [] => []
                      | t :: ts => [] ++ t :: ts
                      end).
    rewrite (IH (appended toks m)) by exact Hsingle.
    cbn [appended Mapper.flags_ Mapper.field_filter_].
    rewrite appended_appended. f_equal.
    subst toks. destruct (Mapper.filtered_out m key); cbn [negb].
    + reflexivity.
    + cbn [map concat]. f_equal.
      destruct (value_tokens (Mapper.flags_ m) c); reflexivity.
Qed.

Lemma filter_none {A} (p : A -> bool) (l : list A) :
  Forall (fun x => p x = false) l -> List.filter p l = [].
Proof.
  induction 1 as [|x l Hx _ IH]; cbn; [reflexivity|]. now rewrite Hx.
Qed.

(** C3, amended. In single-field mode with filter [f]: both constructors
    leave the emitter empty; every set call, raw, scalar, timestamp,
    primary-key or relation, whose key differs from [f] changes neither the
    mapper nor the cell; a set call whose key is [f] emits no key, and
    emits its raw value alone unless it is skipped for its own reason (a
    clean cell or relation without ignore-dirty-flag, a primary key that
    is null or not included), in which case it emits nothing; and [dump]
    returns the emitter's text without a closing call. So a pass outputs
    the values of the calls naming [f] that are not skipped, with no
    enclosing object: exactly the value of the single field when one call
    names [f]. *)
Theorem single_field_pass_outputs_value `{Json.Service} `{Field.TimeFormat}
    flags f :
  Mapper.has_flag flags Mapper.OUTPUT_SINGLE_FIELD = true ->
  Mapper.emitter_ (Mapper.new flags) = [] /\
  (forall text, Mapper.emitter_ (Mapper.new_from text flags) = []) /\
  (forall m key,
     Mapper.flags_ m = flags -> Mapper.field_filter_ m = f -> key <> f ->
     (forall json_struct,
        Mapper.set key json_struct m = (Returned tt, m)) /\
     (forall T set, field_set T set -> forall attr : Field.t T,
        set key (m, attr) = (Returned tt, (m, attr))) /\
     (forall attr : Primary,
        Mapper.set_primary key (m, attr) = (Returned tt, (m, attr))) /\
     (forall R (HR : Relation R) set, relation_set set -> forall attr : R,
        set key (m, attr) = (Returned tt, (m, attr)))) /\
  (forall m c,
     Mapper.flags_ m = flags -> Mapper.field_filter_ m = f ->
     call_key c = Some f ->
     call c m = appended (value_tokens flags c) m) /\
  (forall c,
     (length (value_tokens flags c) <= 1)%nat /\
     List.filter is_key (value_tokens flags c) = []) /\
  (forall m,
     Mapper.flags_ m = flags ->
     Mapper.dump m = (Returned (Mapper.emitter_ m), m)) /\
  (forall calls,
     Forall (fun c => is_set c = true) calls ->
     outcome (serialize flags (SetFieldFilter f :: calls)) =
       Returned (concat (map (value_tokens flags)
                           (List.filter (names f) calls)))) /\
  (forall before c after,
     Forall (fun c' => is_set c' = true) (before ++ c :: after) ->
     names f c = true ->
     Forall (fun c' => names f c' = false) (before ++ after) ->
     outcome (serialize flags (SetFieldFilter f :: before ++ c :: after)) =
       Returned (value_tokens flags c)).
Proof.
  intros Hsingle.
  assert (Hpass : forall calls,
     Forall (fun c => is_set c = true) calls ->
     outcome (serialize flags (SetFieldFilter f :: calls)) =
       Returned (concat (map (value_tokens flags)
                           (List.filter (names f) calls)))).
  { intros calls Hsets. unfold serialize. cbn [run call].
    rewrite run_single_field;
      [| cbn [Mapper.set_field_filter Mapper.flags_];
         now rewrite new_flags | assumption].
    rewrite dump_cases. cbn [appended Mapper.flags_ Mapper.field_filter_
                               Mapper.set_field_filter Mapper.emitter_].
    rewrite new_flags, Hsingle, new_emitter, Hsingle. reflexivity. }
  split; [now rewrite new_emitter, Hsingle|].
  split; [intros text; now rewrite new_from_emitter, Hsingle|].
  split; [|split; [|split; [|split; [|split]]]].
  - intros m key Hflags Hfilter Hkey. subst flags f.
    assert (Hout : Mapper.filtered_out m key = true)
      by (apply filtered_out_true; congruence).
    split; [|split; [|split]].
    + intros json. now rewrite set_cases, Hsingle, Hout.
    + intros T set Hset attr.
      destruct (field_set_cases T set Hset) as (token & _ & Hcases).
      now rewrite Hcases, Hsingle, Hout.
    + intros attr. now rewrite set_primary_cases, Hsingle, Hout.
    + intros R HR set Hset attr.
      now rewrite (relation_set_cases set Hset), Hsingle, Hout.
  - intros m c Hflags Hfilter Hkey. subst flags f.
    rewrite (call_writes c m _ Hkey), Hsingle.
    assert (Hin : Mapper.filtered_out m (Mapper.field_filter_ m) = false)
      by now apply filtered_out_false.
    rewrite Hin. cbn [andb]. f_equal.
    destruct (value_tokens (Mapper.flags_ m) c); reflexivity.
  - intros c. destruct (value_tokens_plain flags c) as (Hlen & Hkeys & _).
    split; assumption.
  - intros m Hflags. subst flags. now rewrite dump_cases, Hsingle.
  - exact Hpass.
  - intros before c after Hsets Hc Hothers.
    rewrite Hpass by assumption.
    apply Forall_app in Hothers. destruct Hothers as [Hbefore Hafter].
    rewrite List.filter_app. cbn [List.filter]. rewrite Hc.
    rewrite (filter_none _ _ Hbefore), (filter_none _ _ Hafter).
    cbn. now rewrite app_nil_r.
Qed.

(* ===================================================================== *)
(** ** Further properties: the options *)
(* ===================================================================== *)

Lemma config_is_bit flag :
  In flag MapperConfig -> exists n, 0 <= n /\ flag = 2 ^ n.
Proof.
  unfold MapperConfig.
  intros [<-|[<-|[<-|[<-|[<-|[<-|[]]]]]]];
    [exists 0 | exists 1 | exists 2 | exists 3 | exists 4 | exists 5];
    (split; [lia | reflexivity]).
Qed.

(** X1. The six options are independent bits: the test of an option on
    [f | g] is the disjunction of the tests on [f] and [g], or-ing an
    option into a bitmask turns that option on and leaves the five others
    as they were, masking it out turns it off and leaves the others, and
    the default bitmask 0 has no option on. *)
Theorem options_are_independent flag other f g :
  In flag MapperConfig ->
  In other MapperConfig ->
  Mapper.has_flag 0 flag = false /\
  Mapper.has_flag (Z.lor f g) flag =
    Mapper.has_flag f flag || Mapper.has_flag g flag /\
  Mapper.has_flag (Z.lor f other) flag =
    (if other =? flag then true else Mapper.has_flag f flag) /\
  Mapper.has_flag (Z.land f (Z.lnot other)) flag =
    (if other =? flag then false else Mapper.has_flag f flag).
Proof.
  intros Hflag Hother.
  destruct (config_is_bit flag Hflag) as (n & Hn & ->).
  destruct (config_is_bit other Hother) as (k & Hk & ->).
  rewrite !has_flag_testbit by assumption.
  rewrite !Z.lor_spec, Z.land_spec, Z.lnot_spec, Z.pow2_bits_eqb, Z.bits_0
    by assumption.
  assert (Hpow : (2 ^ k =? 2 ^ n) = (k =? n)).
  { destruct (Z.eqb_spec k n) as [->|Hne]; [apply Z.eqb_refl|].
    apply Z.eqb_neq. intros Heq. apply Z.pow_inj_r in Heq; lia. }
  rewrite Hpow.
  destruct (k =? n), (Z.testbit f n), (Z.testbit g n); repeat split.
Qed.

(* ===================================================================== *)
(** ** Further properties: what a set does to the cell *)
(* ===================================================================== *)

(** The cell after a typed set is the cell before it, or that cell cleaned;
    it is cleaned only when keep-fields-dirty is not set. *)
Lemma typed_set_cell `{Field.TimeFormat} T set :
  typed_set T set ->
  forall key m (attr : Field.t T),
    snd (final (set key (m, attr))) = attr \/
    (Mapper.has_flag (Mapper.flags_ m) Mapper.KEEP_FIELDS_DIRTY = false /\
     snd (final (set key (m, attr))) = Field.clean attr).
Proof.
  intros Hset key m attr.
  assert (Hshape : exists e,
    set key (m, attr) = (Returned tt, (m, attr)) \/
    set key (m, attr) =
      (Returned tt,
       (e, if Mapper.has_flag (Mapper.flags_ m) Mapper.KEEP_FIELDS_DIRTY
           then attr else Field.clean attr))).
  { destruct Hset.
    - destruct (field_set_cases T Mapper.set_field (set_of_field T))
        as (token & _ & Hcases).
      eexists. rewrite Hcases.
      destruct (_ && _); [left; reflexivity|].
      destruct (_ && _); [left; reflexivity | right; reflexivity].
    - destruct (field_set_cases Z Mapper.set_time set_of_time)
        as (token & _ & Hcases).
      eexists. rewrite Hcases.
      destruct (_ && _); [left; reflexivity|].
      destruct (_ && _); [left; reflexivity | right; reflexivity].
    - exists (appended
                ((if Mapper.has_flag (Mapper.flags_ m) Mapper.OUTPUT_SINGLE_FIELD
                  then [] else [Json.Key key]) ++
                 match Field.value attr with
                 | Some v => [Json.Scalar (Json.VInt v)]
                 | None => []
                 end) m).
      rewrite set_primary_cases.
      destruct (_ && _); [left; reflexivity|].
      destruct (negb _); [left; reflexivity|].
      destruct (Field.value attr); [right; reflexivity | left; reflexivity]. }
  destruct Hshape as [e [-> | ->]]; unfold final; cbn [snd].
  - left. reflexivity.
  - destruct (Mapper.has_flag (Mapper.flags_ m) Mapper.KEEP_FIELDS_DIRTY);
      [left | right; split]; reflexivity.
Qed.

(** X2. A typed set, generic, timestamp or primary-key, never changes the
    value or the null flag of the cell it is given and never marks it
    dirty; under keep-fields-dirty it leaves the cell exactly as it was. *)
Theorem set_never_alters_cell_value `{Field.TimeFormat} T set :
  typed_set T set ->
  forall key m (attr : Field.t T),
    let attr' := snd (final (set key (m, attr))) in
    Field.value attr' = Field.value attr /\
    Field.is_null attr' = Field.is_null attr /\
    (Field.is_dirty attr' = true -> Field.is_dirty attr = true) /\
    (Mapper.has_flag (Mapper.flags_ m) Mapper.KEEP_FIELDS_DIRTY = true ->
     attr' = attr).
Proof.
  intros Hset key m attr attr'. subst attr'.
  destruct (typed_set_cell T set Hset key m attr) as [-> | [Hkeep ->]].
  - repeat split; auto.
  - split; [reflexivity|]. split; [reflexivity|]. split.
    + cbn. discriminate.
    + rewrite Hkeep. discriminate.
Qed.

(** X3. Without ignore-dirty-flag and keep-fields-dirty, a generic or
    timestamp set called a second time on the same cell right after the
    first is skipped, whatever the first call did: a field is emitted at
    most once until it is marked dirty again. *)
Theorem second_set_is_skipped `{Field.TimeFormat} T set :
  field_set T set ->
  forall key m (attr : Field.t T),
    Mapper.has_flag (Mapper.flags_ m) Mapper.IGNORE_DIRTY_FLAG = false ->
    Mapper.has_flag (Mapper.flags_ m) Mapper.KEEP_FIELDS_DIRTY = false ->
    let once := final (set key (m, attr)) in
    set key once = (Returned tt, once).
Proof.
  intros Hset key m attr Hignore Hkeep once. subst once.
  destruct (field_set_cases T set Hset) as (token & _ & Hcases).
  rewrite (Hcases key m attr), Hignore, Hkeep. cbn [negb andb].
  destruct (Mapper.has_flag (Mapper.flags_ m) Mapper.OUTPUT_SINGLE_FIELD
            && Mapper.filtered_out m key) eqn:Hfilter; unfold final; cbn [snd].
  - now rewrite Hcases, Hfilter.
  - destruct (Field.is_dirty attr) eqn:Hdirty; cbn [negb andb snd].
    + rewrite Hcases. unfold Mapper.filtered_out in *.
      cbn [Mapper.flags_ Mapper.field_filter_ Field.clean Field.is_dirty
           Field.dirty].
      now rewrite Hfilter, Hignore.
    + now rewrite Hcases, Hfilter, Hignore, Hdirty.
Qed.

(** X4. The primary-key set is not gated by the dirty flag, so it repeats:
    called a second time right after the first, it emits the same tokens
    once more, under every bitmask. *)
Theorem primary_set_repeats key m (attr : Primary) :
  let once := final (Mapper.set_primary key (m, attr)) in
  let twice := final (Mapper.set_primary key once) in
  exists toks,
    Mapper.emitter_ (fst once) = Mapper.emitter_ m ++ toks /\
    Mapper.emitter_ (fst twice) = Mapper.emitter_ m ++ toks ++ toks /\
    (toks <> [] <->
       Mapper.has_flag (Mapper.flags_ m) Mapper.INCLUDE_PRIMARY_KEY = true /\
       Field.is_null attr = false /\
       (Mapper.has_flag (Mapper.flags_ m) Mapper.OUTPUT_SINGLE_FIELD = true ->
        Mapper.field_filter_ m = key)).
Proof.
  intros once twice. subst once twice.
  pose proof (call_writes (H:=Sample.time_format) (SetPrimary key attr) m key
                eq_refl) as Hcall1.
  cbn [call value_tokens] in Hcall1.
  assert (Hvalue :
    Field.value (snd (final (Mapper.set_primary key (m, attr)))) =
    Field.value attr).
  { destruct (typed_set_cell (H:=Sample.time_format) Z Mapper.set_primary
                typed_set_of_primary key m attr) as [Hcell | [_ Hcell]];
      exact (f_equal Field.value Hcell). }
  destruct (final (Mapper.set_primary key (m, attr))) as [m1 attr1] eqn:Honce.
  cbn [fst snd] in Hcall1, Hvalue |- *.
  pose proof (call_writes (H:=Sample.time_format) (SetPrimary key attr1) m1 key
                eq_refl) as Hcall2.
  cbn [call value_tokens] in Hcall2. rewrite Hvalue in Hcall2.
  rewrite Hcall2. clear Hcall2. subst m1. unfold Mapper.filtered_out.
  cbn [appended Mapper.flags_ Mapper.field_filter_ Mapper.emitter_].
  fold (Mapper.filtered_out m key).
  eexists. split; [reflexivity|]. split; [now rewrite app_assoc|].
  unfold Field.is_null.
  destruct (Mapper.filtered_out m key) eqn:Hfilter;
    [apply filtered_out_true in Hfilter | apply filtered_out_false in Hfilter];
    destruct (Mapper.has_flag (Mapper.flags_ m) Mapper.OUTPUT_SINGLE_FIELD);
    destruct (Mapper.has_flag (Mapper.flags_ m) Mapper.INCLUDE_PRIMARY_KEY);
    destruct (Field.value attr); cbn;
    (split; [intros Hne; repeat split; congruence
            | intros (Hi & Hn & Hf); try discriminate;
              (discriminate || (exfalso; apply Hfilter, Hf; reflexivity))]).
Qed.

(** X5. The relation set, has-one or has-many, follows the rule of the
    scalar fields: a relation that is not dirty is skipped unless
    ignore-dirty-flag is set; a written relation is spliced in as the key
    and the raw fragment the container returns for the propagated bitmask,
    and is cleaned afterwards unless keep-fields-dirty is set, under which
    the container is never changed. *)
Theorem relation_set_follows_dirty_rule {R} `{Relation R} set :
  relation_set set ->
  forall key m (attr : R),
    (Mapper.has_flag (Mapper.flags_ m) Mapper.IGNORE_DIRTY_FLAG = false ->
     rel_is_dirty attr = false ->
     set key (m, attr) = (Returned tt, (m, attr))) /\
    (Mapper.has_flag (Mapper.flags_ m) Mapper.KEEP_FIELDS_DIRTY = true ->
     snd (final (set key (m, attr))) = attr) /\
    (Mapper.has_flag (Mapper.flags_ m) Mapper.OUTPUT_SINGLE_FIELD = false ->
     Mapper.has_flag (Mapper.flags_ m) Mapper.IGNORE_DIRTY_FLAG = true \/
     rel_is_dirty attr = true ->
     set key (m, attr) =
       (Returned tt,
        (appended
           [Json.Key key; Json.Raw (to_json (Mapper.to_json_flags m) attr)] m,
         if Mapper.has_flag (Mapper.flags_ m) Mapper.KEEP_FIELDS_DIRTY
         then attr else rel_clean attr))).
Proof.
  intros Hset key m attr. rewrite (relation_set_cases set Hset key m attr).
  split; [|split].
  - intros -> ->. now destruct (_ && _).
  - intros ->. unfold final.
    destruct (_ && _); [reflexivity|]. destruct (_ && _); reflexivity.
  - intros Hplain Hwrite. rewrite set_cases, Hplain. cbn [andb].
    assert (Hgate :
      negb (Mapper.has_flag (Mapper.flags_ m) Mapper.IGNORE_DIRTY_FLAG)
      && negb (rel_is_dirty attr) = false)
      by (destruct Hwrite as [-> | ->]; [reflexivity | apply andb_false_r]).
    rewrite Hgate. reflexivity.
Qed.

(* ===================================================================== *)
(** ** Further properties: passes *)
(* ===================================================================== *)

Lemma call_keeps_parser `{Field.TimeFormat} c m :
  Mapper.parser_ (call c m) = Mapper.parser_ m.
Proof.
  destruct (call_key c) as [key|] eqn:Hkey.
  - now rewrite (call_writes c m key Hkey).
  - destruct c; try discriminate; reflexivity.
Qed.

Lemma call_keeps_configuration `{Field.TimeFormat} c m :
  is_set c = true ->
  Mapper.flags_ (call c m) = Mapper.flags_ m /\
  Mapper.field_filter_ (call c m) = Mapper.field_filter_ m.
Proof.
  unfold is_set. destruct (call_key c) as [key|] eqn:Hkey; [|discriminate].
  intros _. now rewrite (call_writes c m key Hkey).
Qed.

Lemma call_extends_emitter `{Field.TimeFormat} c m :
  exists toks, Mapper.emitter_ (call c m) = Mapper.emitter_ m ++ toks.
Proof.
  destruct (call_key c) as [key|] eqn:Hkey.
  - rewrite (call_writes c m key Hkey). eexists. reflexivity.
  - exists []. rewrite app_nil_r. destruct c; try discriminate; reflexivity.
Qed.

(** X6. Whatever calls are made on a mapper, its emitter only grows at the
    end and its parser stays the loaded document; [set] calls change
    neither the bitmask nor the filter, so every typed get gives after them
    what it gave before: writing never disturbs reading. *)
Theorem run_only_appends `{Json.Service} `{Field.TimeFormat} calls m :
  (exists toks,
     Mapper.emitter_ (run calls m) = Mapper.emitter_ m ++ toks) /\
  Mapper.parser_ (run calls m) = Mapper.parser_ m /\
  (Forall (fun c => is_set c = true) calls ->
   Mapper.flags_ (run calls m) = Mapper.flags_ m /\
   Mapper.field_filter_ (run calls m) = Mapper.field_filter_ m /\
   forall T get, typed_get T get -> forall key (attr : Field.t T),
     get key (run calls m) attr = get key m attr).
Proof.
  revert m. induction calls as [|c calls IH]; intros m; cbn [run].
  - split; [exists []; now rewrite app_nil_r|]. split; [reflexivity|].
    intros _. repeat split; reflexivity.
  - destruct (IH (call c m)) as ((toks & Hemit) & Hparser & Hsets).
    destruct (call_extends_emitter c m) as (toks0 & Hemit0).
    split; [exists (toks0 ++ toks); now rewrite Hemit, Hemit0, app_assoc|].
    split; [now rewrite Hparser, call_keeps_parser|].
    intros Hall. inversion Hall as [|c' calls' Hc Hcalls]; subst.
    destruct (Hsets Hcalls) as (Hflags & Hfilter & Hget).
    destruct (call_keeps_configuration c m Hc) as (Hflags0 & Hfilter0).
    split; [congruence|]. split; [congruence|].
    intros T get Htyped key attr. rewrite Hget by assumption.
    destruct (typed_get_cases T get Htyped) as (conv & Hcases).
    now rewrite !Hcases, call_keeps_parser, Hflags0.
Qed.

(** With its wrapper open, the mapper receives from a call the key and the
    value, or nothing; only [set_flags] can change that mode. *)
Lemma call_plain `{Field.TimeFormat} c m :
  Mapper.has_flag (Mapper.flags_ m) Mapper.OUTPUT_SINGLE_FIELD = false ->
  is_set_flags c = false ->
  Mapper.emitter_ (call c m) =
    Mapper.emitter_ m ++ member_tokens (Mapper.flags_ m) c /\
  Mapper.flags_ (call c m) = Mapper.flags_ m.
Proof.
  intros Hplain Hc. unfold member_tokens.
  destruct (call_key c) as [key|] eqn:Hkey.
  - rewrite (call_writes c m key Hkey), Hplain. cbn [andb appended
      Mapper.emitter_ Mapper.flags_].
    split; [|reflexivity].
    destruct (value_tokens (Mapper.flags_ m) c); reflexivity.
  - destruct c; try discriminate; cbn; now rewrite app_nil_r.
Qed.

Lemma run_plain `{Field.TimeFormat} calls m :
  Mapper.has_flag (Mapper.flags_ m) Mapper.OUTPUT_SINGLE_FIELD = false ->
  Forall (fun c => is_set_flags c = false) calls ->
  Mapper.emitter_ (run calls m) =
    Mapper.emitter_ m ++ concat (map (member_tokens (Mapper.flags_ m)) calls) /\
  Mapper.flags_ (run calls m) = Mapper.flags_ m.
Proof.
  intros Hplain Hcalls. revert m Hplain.
  induction Hcalls as [|c calls Hc _ IH]; intros m Hplain; cbn [run map concat].
  - now rewrite app_nil_r.
  - destruct (call_plain c m Hplain Hc) as (Hemit & Hflags).
    destruct (IH (call c m)) as (Hemit' & Hflags'); [now rewrite Hflags|].
    rewrite Hemit', Hflags', Hemit, Hflags, app_assoc. split; reflexivity.
Qed.

(** X7. A pass constructed without output-single-field and without a call
    of [set_flags] outputs a well-formed member list: the opening call,
    then for each [set] call that is not skipped its key followed by its
    value, in the order of the calls, then the closing call. The field
    filter, set or not, has no effect on it. *)
Theorem plain_pass_output `{Field.TimeFormat} flags calls :
  Mapper.has_flag flags Mapper.OUTPUT_SINGLE_FIELD = false ->
  Forall (fun c => is_set_flags c = false) calls ->
  outcome (serialize flags calls) =
    Returned (Json.MapOpen :: concat (map (member_tokens flags) calls)
              ++ [Json.MapClose]) /\
  forall f,
    outcome (serialize flags (SetFieldFilter f :: calls)) =
    outcome (serialize flags calls).
Proof.
  intros Hplain Hcalls.
  assert (Hout : forall m,
    Mapper.flags_ m = flags -> Mapper.emitter_ m = [Json.MapOpen] ->
    outcome (Mapper.dump (run calls m)) =
      Returned (Json.MapOpen :: concat (map (member_tokens flags) calls)
                ++ [Json.MapClose])).
  { intros m Hflags Hemit.
    destruct (run_plain calls m) as (Hemit' & Hflags');
      [now rewrite Hflags | assumption |].
    rewrite dump_cases, Hflags', Hflags, Hplain, Hemit', Hemit, Hflags.
    reflexivity. }
  assert (Hnew : Mapper.emitter_ (Mapper.new flags) = [Json.MapOpen])
    by now rewrite new_emitter, Hplain.
  split.
  - apply Hout; [apply new_flags | exact Hnew].
  - intros f. unfold serialize. cbn [run call].
    rewrite (Hout (Mapper.set_field_filter f (Mapper.new flags)));
      [| cbn; apply new_flags | exact Hnew].
    rewrite (Hout (Mapper.new flags)); [| apply new_flags | exact Hnew].
    reflexivity.
Qed.

Lemma call_same_writer `{Field.TimeFormat} c m1 m2 :
  same_writer m1 m2 -> same_writer (call c m1) (call c m2).
Proof.
  intros (Hemit & Hflags & Hfilter). unfold same_writer.
  destruct (call_key c) as [key|] eqn:Hkey.
  - rewrite (call_writes c m1 key Hkey), (call_writes c m2 key Hkey).
    unfold Mapper.filtered_out.
    cbn [appended Mapper.emitter_ Mapper.flags_ Mapper.field_filter_].
    rewrite Hemit, Hflags, Hfilter. repeat split.
  - destruct c; try discriminate; cbn; repeat split; assumption.
Qed.

Lemma run_same_writer `{Field.TimeFormat} calls m1 m2 :
  same_writer m1 m2 -> same_writer (run calls m1) (run calls m2).
Proof.
  revert m1 m2. induction calls as [|c calls IH]; intros m1 m2 Hsame;
    cbn [run]; [assumption|].
  apply IH, call_same_writer, Hsame.
Qed.

(** X8. The text a mapper was constructed from never shows in what it
    emits: a pass on a mapper loaded from any text returns the output of
    the same pass on a mapper constructed empty. *)
Theorem output_ignores_loaded_document `{Json.Service} `{Field.TimeFormat}
    json_struct flags calls :
  outcome (serialize_from json_struct flags calls) =
  outcome (serialize flags calls).
Proof.
  unfold serialize_from, serialize.
  assert (Hsame : same_writer (Mapper.new_from json_struct flags)
                              (Mapper.new flags)).
  { unfold same_writer. rewrite new_from_emitter, new_emitter, new_flags.
    unfold Mapper.new_from, Mapper.new, Mapper.should_output_single_field.
    unfold_action. cbn [Mapper.flags_ Mapper.field_filter_].
    destruct (Mapper.has_flag flags Mapper.OUTPUT_SINGLE_FIELD);
      repeat split. }
  destruct (run_same_writer calls _ _ Hsame) as (Hemit & Hflags & _).
  rewrite !dump_cases, Hemit, Hflags.
  destruct (Mapper.has_flag (Mapper.flags_ (run calls (Mapper.new flags)))
              Mapper.OUTPUT_SINGLE_FIELD); reflexivity.
Qed.

(** X9. [dump] does not guard against a second call: outside single-field
    mode a second [dump] closes the wrapper once more and returns the first
    output followed by another closing call; in single-field mode it
    returns the first output again. *)
Theorem second_dump_closes_again m :
  exists out,
    outcome (Mapper.dump m) = Returned out /\
    outcome (Mapper.dump (final (Mapper.dump m))) =
      Returned
        (if Mapper.has_flag (Mapper.flags_ m) Mapper.OUTPUT_SINGLE_FIELD
         then out else out ++ [Json.MapClose]) /\
    (Mapper.has_flag (Mapper.flags_ m) Mapper.OUTPUT_SINGLE_FIELD = false ->
     closes (Mapper.emitter_ (final (Mapper.dump (final (Mapper.dump m))))) =
       (closes (Mapper.emitter_ m) + 2)%nat).
Proof.
  rewrite (dump_cases m).
  destruct (Mapper.has_flag (Mapper.flags_ m) Mapper.OUTPUT_SINGLE_FIELD)
    eqn:Hsingle; unfold outcome, final; cbn [fst snd];
    eexists; (split; [reflexivity|]); rewrite dump_cases;
    cbn [appended Mapper.flags_ Mapper.emitter_]; rewrite Hsingle;
    cbn [fst snd appended Mapper.emitter_].
  - split; [reflexivity | discriminate].
  - split; [reflexivity|]. intros _. rewrite !closes_app. cbn. lia.
Qed.

(** X10. What a raw, generic, timestamp or primary-key set emits does not
    depend on the two options of deserialization: two mappers with the same
    emitter and filter whose bitmasks agree on the include-primary-key,
    ignore-dirty-flag and output-single-field bits have the same emitter
    after the call. (A relation set hands the whole bitmask to the
    container and is left out.) *)
Theorem set_ignores_deserialize_flags `{Field.TimeFormat} c m1 m2 :
  is_set c = true ->
  is_relation c = false ->
  Mapper.emitter_ m1 = Mapper.emitter_ m2 ->
  Mapper.field_filter_ m1 = Mapper.field_filter_ m2 ->
  Z.testbit (Mapper.flags_ m1) 1 = Z.testbit (Mapper.flags_ m2) 1 ->
  Z.testbit (Mapper.flags_ m1) 2 = Z.testbit (Mapper.flags_ m2) 2 ->
  Z.testbit (Mapper.flags_ m1) 5 = Z.testbit (Mapper.flags_ m2) 5 ->
  Mapper.emitter_ (call c m1) = Mapper.emitter_ (call c m2).
Proof.
  unfold is_set. intros Hset Hrel Hemit Hfilter Hinclude Hdirty Hsingle.
  destruct (call_key c) as [key|] eqn:Hkey; [|discriminate].
  rewrite (call_writes c m1 key Hkey), (call_writes c m2 key Hkey).
  unfold Mapper.filtered_out. cbn [appended Mapper.emitter_].
  rewrite Hemit, Hfilter, !output_single_field_bit, Hsingle.
  assert (Hvalue : value_tokens (Mapper.flags_ m1) c =
                   value_tokens (Mapper.flags_ m2) c).
  { destruct c; try discriminate; cbn [value_tokens];
      rewrite ?ignore_dirty_flag_bit, ?include_primary_key_bit,
        ?Hdirty, ?Hinclude; reflexivity. }
  now rewrite Hvalue.
Qed.

(* ===================================================================== *)
(** ** Further properties: reading *)
(* ===================================================================== *)

(** X11. A typed get on a key the document holds returns, and overwrites
    the value of the cell: afterwards the cell is null exactly when the
    JSON value is null, and its value is the same whatever the cell held
    before. *)
Theorem get_overwrites_cell `{Json.Service} `{Field.TimeFormat} T get :
  typed_get T get ->
  forall key m node (attr other : Field.t T),
    Mapper.parser_ m !! key = Some node ->
    let r := get key m attr in
    outcome r = Returned tt /\
    Field.is_null (final r) = Json.is_null node /\
    Field.value (final (get key m other)) = Field.value (final r).
Proof.
  intros Hget key m node attr other Hnode r. subst r.
  destruct (typed_get_cases T get Hget) as (conv & Hcases).
  rewrite !Hcases, Hnode. unfold outcome, final, Field.is_null. cbn [fst snd].
  destruct (Json.is_null node);
    destruct (Mapper.has_flag (Mapper.flags_ m) Mapper.TOUCH_FIELDS);
    repeat split.
Qed.

(** X12. A value that is not null survives a get followed by a set on a
    mapper with its wrapper open: the generic pair emits the key and the
    value read from the node, the timestamp pair the key and the text of
    the time read from the node's string, both under ignore-dirty-flag, and
    the primary-key pair the key and the node's integer under
    include-primary-key. *)
Theorem value_round_trip `{Json.Service} `{Field.TimeFormat}
    key reader writer node :
  Mapper.parser_ reader !! key = Some node ->
  Json.is_null node = false ->
  Mapper.has_flag (Mapper.flags_ writer) Mapper.OUTPUT_SINGLE_FIELD = false ->
  (forall T (HT : Field.Scalar T) (attr : Field.t T),
     Mapper.has_flag (Mapper.flags_ writer) Mapper.IGNORE_DIRTY_FLAG = true ->
     Mapper.emitter_
       (fst (final (Mapper.set_field key
                      (writer, final (Mapper.get_field key reader attr))))) =
     Mapper.emitter_ writer ++
       [Json.Key key; Json.Scalar (Field.to_value (Field.from_node node))]) /\
  (forall attr : Field.t Z,
     Mapper.has_flag (Mapper.flags_ writer) Mapper.IGNORE_DIRTY_FLAG = true ->
     Mapper.emitter_
       (fst (final (Mapper.set_time key
                      (writer, final (Mapper.get_time key reader attr))))) =
     Mapper.emitter_ writer ++
       [Json.Key key;
        Json.Scalar
          (Json.VString
             (Field.to_iso8601 true
                (Field.from_iso8601 (Json.to_string node))))]) /\
  (forall attr : Primary,
     Mapper.has_flag (Mapper.flags_ writer) Mapper.INCLUDE_PRIMARY_KEY = true ->
     Mapper.emitter_
       (fst (final (Mapper.set_primary key
                      (writer, final (Mapper.get_primary key reader attr))))) =
     Mapper.emitter_ writer ++
       [Json.Key key; Json.Scalar (Json.VInt (Json.to_int node))]).
Proof.
  intros Hnode Hvalue Hplain.
  split; [|split].
  - intros T HT attr Hignore. unfold_get. rewrite Hnode, Hvalue.
    unfold_set. unfold Field.is_null, Json.emit.
    rewrite Hplain, Hignore.
    destruct (Mapper.has_flag (Mapper.flags_ reader) Mapper.TOUCH_FIELDS);
      destruct (Mapper.has_flag (Mapper.flags_ writer) Mapper.KEEP_FIELDS_DIRTY);
      cbn; now rewrite <- app_assoc.
  - intros attr Hignore. unfold_get. rewrite Hnode, Hvalue.
    unfold_set. unfold Field.is_null, Json.emit.
    rewrite Hplain, Hignore.
    destruct (Mapper.has_flag (Mapper.flags_ reader) Mapper.TOUCH_FIELDS);
      destruct (Mapper.has_flag (Mapper.flags_ writer) Mapper.KEEP_FIELDS_DIRTY);
      cbn; now rewrite <- app_assoc.
  - intros attr Hinclude. unfold_get. rewrite Hnode, Hvalue.
    unfold_set. unfold Field.is_null, Json.emit.
    rewrite Hplain, Hinclude.
    destruct (Mapper.has_flag (Mapper.flags_ reader) Mapper.TOUCH_FIELDS);
      destruct (Mapper.has_flag (Mapper.flags_ writer) Mapper.KEEP_FIELDS_DIRTY);
      cbn; now rewrite <- app_assoc.
Qed.

(** The generic and the timestamp set, when they write outside
    single-field mode, hand the emitter the key and then one value: null
    for a null cell, a scalar otherwise. *)
Lemma field_set_writes_value `{Field.TimeFormat} T set :
  field_set T set ->
  forall key m (attr : Field.t T),
    Mapper.has_flag (Mapper.flags_ m) Mapper.OUTPUT_SINGLE_FIELD = false ->
    Mapper.has_flag (Mapper.flags_ m) Mapper.IGNORE_DIRTY_FLAG = true \/
    Field.is_dirty attr = true ->
    exists tok,
      (if Field.is_null attr then tok = Json.Null
       else exists v, tok = Json.Scalar v) /\
      Mapper.emitter_ (fst (final (set key (m, attr)))) =
        Mapper.emitter_ m ++ [Json.Key key; tok].
Proof.
  intros Hset key m attr Hplain Hwrite.
  assert (Hgate :
    negb (Mapper.has_flag (Mapper.flags_ m) Mapper.IGNORE_DIRTY_FLAG)
    && negb (Field.is_dirty attr) = false)
    by (destruct Hwrite as [-> | ->]; [reflexivity | apply andb_false_r]).
  destruct Hset; unfold_set; rewrite Hplain, Hgate;
    unfold Field.is_null, Json.emit; cbn [andb negb];
    (destruct (Field.value attr) as [v|];
     destruct (Mapper.has_flag (Mapper.flags_ m) Mapper.KEEP_FIELDS_DIRTY);
     cbn; eexists; (split; [try reflexivity; eexists; reflexivity|]);
     now rewrite <- app_assoc).
Qed.

(** X13. A field read under touch-fields is emitted by the next generic or
    timestamp set even without ignore-dirty-flag: whenever the get returns,
    for a present key or for an absent one under ignore-missing-fields, a
    set on a mapper with its wrapper open emits the key and exactly one
    value token after it: null when the cell the get left is null, a
    scalar otherwise. *)
Theorem touched_field_is_emitted `{Json.Service} `{Field.TimeFormat} T get set :
  typed_get T get ->
  field_set T set ->
  forall key reader writer (attr : Field.t T),
    Mapper.has_flag (Mapper.flags_ reader) Mapper.TOUCH_FIELDS = true ->
    outcome (get key reader attr) = Returned tt ->
    Mapper.has_flag (Mapper.flags_ writer) Mapper.OUTPUT_SINGLE_FIELD = false ->
    exists tok,
      (if Field.is_null (final (get key reader attr)) then tok = Json.Null
       else exists v, tok = Json.Scalar v) /\
      Mapper.emitter_
        (fst (final (set key (writer, final (get key reader attr))))) =
      Mapper.emitter_ writer ++ [Json.Key key; tok].
Proof.
  intros Hget Hset key reader writer attr Htouch Hret Hplain.
  destruct (typed_get_cases T get Hget) as (conv & Hgetc).
  assert (Hdirty : Field.is_dirty (final (get key reader attr)) = true).
  { revert Hret. rewrite Hgetc, Htouch. unfold outcome, final.
    destruct (Mapper.parser_ reader !! key) as [node|]; [reflexivity|].
    destruct (Mapper.has_flag (Mapper.flags_ reader)
                Mapper.IGNORE_MISSING_FIELDS); [reflexivity | discriminate]. }
  apply (field_set_writes_value T set Hset key writer
           (final (get key reader attr)) Hplain).
  right. exact Hdirty.
Qed.

Lemma run_keeps_parser `{Field.TimeFormat} calls m :
  Mapper.parser_ (run calls m) = Mapper.parser_ m.
Proof.
  revert m. induction calls as [|c calls IH]; intros m; cbn [run];
    [reflexivity|].
  now rewrite IH, call_keeps_parser.
Qed.

Lemma new_parser flags : Mapper.parser_ (Mapper.new flags) = Json.unloaded.
Proof.
  unfold Mapper.new, Mapper.should_output_single_field. unfold_action.
  cbn [Mapper.flags_].
  destruct (Mapper.has_flag flags Mapper.OUTPUT_SINGLE_FIELD); reflexivity.
Qed.

(** X14. A mapper constructed without input has nothing to read, whatever
    is written through it: the raw get raises field-not-found for every
    key, a typed get raises it too unless ignore-missing-fields is set, in
    which case the cell is only touched under touch-fields, and a relation
    get leaves the container alone. *)
Theorem unloaded_mapper_reads_nothing `{Json.Service} `{Field.TimeFormat}
    flags calls :
  let m := run calls (Mapper.new flags) in
  (forall key, Mapper.get key m = Thrown (NotFound key)) /\
  (forall T get, typed_get T get -> forall key (attr : Field.t T),
     get key m attr =
       if Mapper.has_flag (Mapper.flags_ m) Mapper.IGNORE_MISSING_FIELDS
       then (Returned tt,
             if Mapper.has_flag (Mapper.flags_ m) Mapper.TOUCH_FIELDS
             then Field.touch attr else attr)
       else (Thrown (NotFound key), attr)) /\
  (forall R (HR : Relation R) get, relation_get get -> forall key (attr : R),
     get key m attr = (Returned tt, attr)).
Proof.
  intros m.
  assert (Hnone : forall key, Mapper.parser_ m !! key = None).
  { intros key. subst m. rewrite run_keeps_parser, new_parser.
    apply lookup_empty. }
  split; [|split].
  - intros key. unfold Mapper.get, Json.find. now rewrite Hnone.
  - intros T get Hget key attr.
    destruct (typed_get_cases T get Hget) as (conv & Hcases).
    now rewrite Hcases, Hnone.
  - intros R HR get Hget key attr.
    destruct Hget; unfold Mapper.get_has_one, Mapper.get_has_many, Json.empty;
      now rewrite Hnone.
Qed.


(* ===================================================================== *)
(** ** Further properties: the bitmask of nested records *)
(* ===================================================================== *)

(** X16. The bitmask handed to a relation is stable under nesting: a
    mapper running under the bitmask of a relation get hands the same
    bitmask on, and so does one running under the bitmask of a relation
    set; such a mapper includes primary keys, and under the bitmask of a
    relation set it is never in single-field mode, so its constructor
    opens the wrapper of a whole object. *)
Theorem relation_flags_are_stable m :
  (forall nested,
     Mapper.flags_ nested = Mapper.from_json_flags m ->
     Mapper.from_json_flags nested = Mapper.from_json_flags m /\
     Mapper.should_include_primary_key nested = true) /\
  (forall nested,
     Mapper.flags_ nested = Mapper.to_json_flags m ->
     Mapper.to_json_flags nested = Mapper.to_json_flags m /\
     Mapper.should_include_primary_key nested = true /\
     Mapper.should_output_single_field nested = false) /\
  Mapper.emitter_ (Mapper.new (Mapper.to_json_flags m)) = [Json.MapOpen].
Proof.
  assert (Hinclude :
    Mapper.has_flag (Mapper.to_json_flags m) Mapper.INCLUDE_PRIMARY_KEY = true)
    by (rewrite include_primary_key_bit; now rewrite to_json_flags_bits).
  assert (Hsingle :
    Mapper.has_flag (Mapper.to_json_flags m) Mapper.OUTPUT_SINGLE_FIELD = false)
    by (rewrite output_single_field_bit; now rewrite to_json_flags_bits).
  split; [|split].
  - intros nested Hflags. split.
    + unfold Mapper.from_json_flags at 1. rewrite Hflags.
      unfold Mapper.from_json_flags. now rewrite <- Z.lor_assoc, Z.lor_diag.
    + unfold Mapper.should_include_primary_key.
      rewrite Hflags, include_primary_key_bit. apply from_json_flags_bits.
  - intros nested Hflags. split; [|split].
    + apply Z.bits_inj'. intros n Hn.
      rewrite (to_json_flags_bits nested n Hn), Hflags.
      rewrite (to_json_flags_bits m n Hn).
      destruct (n =? 1); [reflexivity|]. destruct (n =? 5); reflexivity.
    + unfold Mapper.should_include_primary_key. now rewrite Hflags.
    + unfold Mapper.should_output_single_field. now rewrite Hflags.
  - now rewrite new_emitter, Hsingle.
Qed.

(* ===================================================================== *)
(** ** Concrete runs *)
(* ===================================================================== *)

Import Sample.

Lemma get_raises_not_found_iff_missing_witness :
  let m := Mapper.new_from Sample.text_a Mapper.IGNORE_MISSING_FIELDS in
  let attr : Field.t Z := Field.Build (Some 7) false in
  let r := Mapper.get_field "b" m attr in
  outcome r = Returned tt /\
  Field.value (final r) = Some 7 /\
  Field.is_null (final r) = false /\
  Field.is_dirty (final r) = false.
Proof.
  intros m attr r.
  apply (get_raises_not_found_iff_missing Z Mapper.get_field
           (get_of_field Z) "b" m attr); reflexivity.
Defined.

Lemma get_ignores_serialize_flags_witness :
  Mapper.get_primary "a" (Mapper.new_from text_a 9) (Field.Build None false) =
  Mapper.get_primary "a"
    (Mapper.set_field_filter "a" (Mapper.new_from text_a 63))
    (Field.Build None false).
Proof.
  apply (get_ignores_serialize_flags Z Mapper.get_primary get_of_primary);
    reflexivity.
Defined.

(** C7 as stated fails where it says so itself: with touch-fields set and
    ignore-missing-fields not set, a get on a key absent from [{"a": 1}]
    raises field-not-found and the cell is still clean. *)
Lemma touch_fields_skipped_on_error :
  let m := Mapper.new_from text_a Mapper.TOUCH_FIELDS in
  let attr : Field.t Z := Field.Build (Some 7) false in
  Mapper.has_flag (Mapper.flags_ m) Mapper.TOUCH_FIELDS = true /\
  Mapper.parser_ m !! "b" = None /\
  Mapper.get_field "b" m attr = (Thrown (NotFound "b"), attr) /\
  Mapper.get_time "b" m attr = (Thrown (NotFound "b"), attr) /\
  Mapper.get_primary "b" m attr = (Thrown (NotFound "b"), attr) /\
  Field.is_dirty (final (Mapper.get_field "b" m attr)) <> true.
Proof. repeat split. discriminate. Qed.

Lemma touch_fields_dirties_on_return_witness :
  let m := Mapper.new_from text_a (Mapper.TOUCH_FIELDS + Mapper.IGNORE_MISSING_FIELDS) in
  let attr : Field.t Z := Field.Build (Some 7) false in
  let r := Mapper.get_time "b" m attr in
  (outcome r = Returned tt -> Field.is_dirty (final r) = true) /\
  (outcome r = Returned tt <->
     is_Some (Mapper.parser_ m !! "b") \/
     Mapper.has_flag (Mapper.flags_ m) Mapper.IGNORE_MISSING_FIELDS = true) /\
  (Mapper.parser_ m !! "b" = None ->
   Mapper.has_flag (Mapper.flags_ m) Mapper.IGNORE_MISSING_FIELDS = false ->
   r = (Thrown (NotFound "b"), attr)).
Proof.
  intros m attr r.
  apply (touch_fields_dirties_on_return Z Mapper.get_time get_of_time "b" m attr).
  reflexivity.
Defined.

Lemma set_skips_clean_cell_witness :
  let m := Mapper.new Mapper.KEEP_FIELDS_DIRTY in
  let attr : Field.t string := Field.Build (Some "Ann") false in
  Mapper.set_field "name" (m, attr) = (Returned tt, (m, attr)) /\
  Mapper.emitter_ (fst (final (Mapper.set_field "name" (m, attr)))) =
    Mapper.emitter_ m /\
  Mapper.dump (fst (final (Mapper.set_field "name" (m, attr)))) = Mapper.dump m.
Proof.
  intros m attr.
  apply (set_skips_clean_cell (string : Type) Mapper.set_field
           (set_of_field string) "name" m attr); reflexivity.
Defined.

(** C4 as stated fails in single-field mode: with include-primary-key
    set, a cell that is not null and a filter that names the key, the set
    emits the integer and no key. *)
Lemma primary_set_emits_no_key_in_single_field_mode :
  let m := Mapper.set_field_filter "id"
    (Mapper.new (Mapper.INCLUDE_PRIMARY_KEY + Mapper.OUTPUT_SINGLE_FIELD)) in
  let attr : Primary := Field.Build (Some 42) false in
  let out := Mapper.emitter_ (fst (final (Mapper.set_primary "id" (m, attr)))) in
  Mapper.has_flag (Mapper.flags_ m) Mapper.INCLUDE_PRIMARY_KEY = true /\
  Field.is_null attr = false /\
  out = [Json.Scalar (Json.VInt 42)] /\
  ~ In (Json.Key "id") out.
Proof.
  cbv zeta. split; [reflexivity|]. split; [reflexivity|].
  split; [reflexivity|]. intros [Hin|[]]. discriminate.
Qed.

Lemma primary_set_emits_iff_included_and_not_null_witness :
  let m := Mapper.new Mapper.INCLUDE_PRIMARY_KEY in
  let attr : Primary := Field.Build (Some 42) false in
  Mapper.emitter_ (fst (final (Mapper.set_primary "id" (m, attr)))) =
    Mapper.emitter_ m ++ [Json.Key "id"; Json.Scalar (Json.VInt 42)].
Proof.
  intros m attr.
  apply (primary_set_emits_iff_included_and_not_null "id" m attr); reflexivity.
Defined.

(** C6 as stated fails under keep-fields-dirty: the primary key 42 is
    written and its cell is still dirty after the call. *)
Lemma primary_set_keeps_dirty_when_asked :
  let m := Mapper.new (Mapper.INCLUDE_PRIMARY_KEY + Mapper.KEEP_FIELDS_DIRTY) in
  let attr : Primary := Field.Build (Some 42) true in
  let r := Mapper.set_primary "id" (m, attr) in
  Mapper.emitter_ (fst (final r)) =
    [Json.MapOpen; Json.Key "id"; Json.Scalar (Json.VInt 42)] /\
  Field.is_dirty (snd (final r)) = true /\
  Field.is_dirty (snd (final r)) <> false.
Proof. repeat split. discriminate. Qed.

Lemma primary_set_cleans_unless_kept_witness :
  let m := Mapper.new Mapper.INCLUDE_PRIMARY_KEY in
  let attr : Primary := Field.Build (Some 42) true in
  let attr' := snd (final (Mapper.set_primary "id" (m, attr))) in
  attr' = Field.clean attr /\ Field.is_dirty attr' = false.
Proof.
  intros m attr.
  apply (primary_set_cleans_unless_kept "id" m attr);
    [reflexivity | reflexivity | discriminate].
Defined.

(** C8 as stated fails in single-field mode, where no key is emitted and a
    field the filter does not name is dropped, and on primary keys, whose
    set skips a null cell whatever the bitmask: in both runs the key was
    read as null and the output holds no null at all. *)
Lemma null_not_round_tripped :
  let single := Mapper.set_field_filter "other"
    (Mapper.new_from text_F (Mapper.IGNORE_DIRTY_FLAG + Mapper.OUTPUT_SINGLE_FIELD)) in
  let cell : Field.t Z :=
    final (Mapper.get_field "F" single (Field.Build (Some 7) false)) in
  let plain := Mapper.new_from text_id
    (Mapper.IGNORE_DIRTY_FLAG + Mapper.INCLUDE_PRIMARY_KEY) in
  let id : Primary :=
    final (Mapper.get_primary "id" plain (Field.Build (Some 7) false)) in
  (Mapper.parser_ single !! "F" = Some Json.JNull /\
   Mapper.has_flag (Mapper.flags_ single) Mapper.IGNORE_DIRTY_FLAG = true /\
   cell = Field.Build None true /\
   outcome (Mapper.dump (fst (final (Mapper.set_field "F" (single, cell))))) =
     Returned [] /\
   ~ In Json.Null []) /\
  (Mapper.parser_ plain !! "id" = Some Json.JNull /\
   Mapper.has_flag (Mapper.flags_ plain) Mapper.IGNORE_DIRTY_FLAG = true /\
   id = Field.Build None true /\
   outcome (Mapper.dump (fst (final (Mapper.set_primary "id" (plain, id))))) =
     Returned [Json.MapOpen; Json.MapClose] /\
   ~ In Json.Null [Json.MapOpen; Json.MapClose]).
Proof.
  cbv zeta. split.
  - split; [reflexivity|]. split; [reflexivity|]. split; [reflexivity|].
    split; [reflexivity|]. intros [].
  - split; [reflexivity|]. split; [reflexivity|]. split; [reflexivity|].
    split; [reflexivity|]. intros [Hin|[Hin|[]]]; discriminate.
Qed.

Lemma null_round_trip_witness :
  let reader := Mapper.new_from text_F 0 in
  let writer := Mapper.new Mapper.IGNORE_DIRTY_FLAG in
  let r := Mapper.get_field "F" reader (Field.Build (Some 7) false) in
  outcome r = Returned tt /\
  Field.is_null (final r) = true /\
  Field.is_dirty (final r) = true /\
  Mapper.emitter_ (fst (final (Mapper.set_field "F" (writer, final r)))) =
    [Json.MapOpen; Json.Key "F"; Json.Null].
Proof.
  intros reader writer r.
  destruct (null_round_trip Z Mapper.get_field Mapper.set_field
              (get_of_field Z) (set_of_field Z) "F" reader writer
              (Field.Build (Some 7) false) eq_refl eq_refl)
    as (Hret & Hnull & Hdirty & Hplain & _).
  split; [exact Hret |].
  split; [exact Hnull |].
  split; [exact Hdirty |].
  apply Hplain. reflexivity.
Defined.

Lemma relation_flags_force_primary_key_witness :
  let blank := {| hydrated := None; probe_dirty := true |} in
  Mapper.get_has_one "a" (Mapper.new_from text_a Mapper.IGNORE_DIRTY_FLAG) blank =
    (Returned tt, {| hydrated := Some ("1", 6); probe_dirty := true |}) /\
  Mapper.emitter_
    (fst (final (Mapper.set_has_many "a" (Mapper.new Mapper.OUTPUT_SINGLE_FIELD, blank)))) =
    [] /\
  Mapper.emitter_
    (fst (final (Mapper.set_has_many "" (Mapper.new Mapper.OUTPUT_SINGLE_FIELD, blank)))) =
    [Json.Raw "2"].
Proof.
  intros blank.
  destruct (relation_flags_force_primary_key Mapper.get_has_one
              Mapper.set_has_many get_of_has_one set_of_has_many "a"
              (Mapper.new_from text_a Mapper.IGNORE_DIRTY_FLAG) blank)
    as (Hget & _).
  destruct (relation_flags_force_primary_key Mapper.get_has_one
              Mapper.set_has_many get_of_has_one set_of_has_many "a"
              (Mapper.new Mapper.OUTPUT_SINGLE_FIELD) blank)
    as (_ & Hset1 & _).
  destruct (relation_flags_force_primary_key Mapper.get_has_one
              Mapper.set_has_many get_of_has_one set_of_has_many ""
              (Mapper.new Mapper.OUTPUT_SINGLE_FIELD) blank)
    as (_ & Hset2 & _).
  rewrite Hget, Hset1, Hset2. repeat split.
Defined.

(** C9 as stated fails when [set_flags] changes the output-single-field
    bit between construction and [dump]: the wrapper is opened and never
    closed, or closed and never opened. *)
Lemma wrapper_unpaired_after_set_flags :
  let out := [Json.MapOpen; Json.Key "age"; Json.Scalar (Json.VInt 30)] in
  outcome (serialize 0 [SetField "age" (Field.Build (Some 30) true);
                        SetFlags Mapper.OUTPUT_SINGLE_FIELD]) = Returned out /\
  opens out = 1%nat /\ closes out = 0%nat /\ opens out <> closes out /\
  outcome (serialize Mapper.OUTPUT_SINGLE_FIELD [SetFlags 0]) =
    Returned [Json.MapClose].
Proof. repeat split. discriminate. Qed.

Lemma wrapper_paired_iff_mode_kept_witness :
  let m := run [SetField "age" (Field.Build (Some 30) true);
                SetFlags Mapper.KEEP_FIELDS_DIRTY]
               (Mapper.new_from text_a 0) in
  exists out,
    outcome (Mapper.dump m) = Returned out /\
    opens out = 1%nat /\
    closes out = 1%nat /\
    (opens out = closes out <->
       Mapper.has_flag (Mapper.flags_ m) Mapper.OUTPUT_SINGLE_FIELD =
       Mapper.has_flag 0 Mapper.OUTPUT_SINGLE_FIELD).
Proof.
  apply (wrapper_paired_iff_mode_kept 0
           [SetField "age" (Field.Build (Some 30) true);
            SetFlags Mapper.KEEP_FIELDS_DIRTY]
           (Mapper.new_from text_a 0)).
  right. exists text_a. reflexivity.
Defined.

(** C3 as stated fails when the call naming the filtered key is skipped
    for its own reason: the cell of ["name"] is clean and ignore-dirty-flag
    is not set, so the pass outputs nothing instead of the value of
    ["name"]. *)
Lemma single_field_pass_may_output_nothing :
  let name : Field.t string := Field.Build (Some "Ann") false in
  let age : Field.t Z := Field.Build (Some 30) true in
  let m := Mapper.set_field_filter "name" (Mapper.new Mapper.OUTPUT_SINGLE_FIELD) in
  Mapper.set_field "name" (m, name) = (Returned tt, (m, name)) /\
  outcome (serialize Mapper.OUTPUT_SINGLE_FIELD
             [SetFieldFilter "name"; SetField "name" name; SetField "age" age]) =
    Returned [] /\
  outcome (serialize Mapper.OUTPUT_SINGLE_FIELD
             [SetFieldFilter "name"; SetField "name" name; SetField "age" age]) <>
    Returned [Json.Scalar (Json.VString "Ann")].
Proof. repeat split. discriminate. Qed.

Lemma single_field_pass_outputs_value_witness :
  let name : Field.t string := Field.Build (Some "Ann") true in
  let age : Field.t Z := Field.Build (Some 30) true in
  outcome (serialize Mapper.OUTPUT_SINGLE_FIELD
             (SetFieldFilter "name" :: [] ++ SetField "name" name :: [SetField "age" age])) =
    Returned [Json.Scalar (Json.VString "Ann")].
Proof.
  intros name age.
  apply (single_field_pass_outputs_value Mapper.OUTPUT_SINGLE_FIELD "name"
           eq_refl).
  - repeat constructor.
  - reflexivity.
  - repeat constructor.
Defined.

Lemma options_are_independent_witness :
  Mapper.has_flag 0 Mapper.TOUCH_FIELDS = false /\
  Mapper.has_flag (Z.lor 5 24) Mapper.TOUCH_FIELDS =
    Mapper.has_flag 5 Mapper.TOUCH_FIELDS || Mapper.has_flag 24 Mapper.TOUCH_FIELDS /\
  Mapper.has_flag (Z.lor 5 Mapper.KEEP_FIELDS_DIRTY) Mapper.TOUCH_FIELDS =
    (if Mapper.KEEP_FIELDS_DIRTY =? Mapper.TOUCH_FIELDS then true
     else Mapper.has_flag 5 Mapper.TOUCH_FIELDS) /\
  Mapper.has_flag (Z.land 5 (Z.lnot Mapper.KEEP_FIELDS_DIRTY)) Mapper.TOUCH_FIELDS =
    (if Mapper.KEEP_FIELDS_DIRTY =? Mapper.TOUCH_FIELDS then false
     else Mapper.has_flag 5 Mapper.TOUCH_FIELDS).
Proof.
  apply (options_are_independent Mapper.TOUCH_FIELDS Mapper.KEEP_FIELDS_DIRTY
           5 24); unfold MapperConfig; cbn; tauto.
Defined.

Lemma set_never_alters_cell_value_witness :
  let m := Mapper.new 0 in
  let attr : Field.t Z := Field.Build (Some 30) true in
  let attr' := snd (final (Mapper.set_time "at" (m, attr))) in
  Field.value attr' = Some 30 /\
  Field.is_null attr' = false /\
  (Field.is_dirty attr' = true -> Field.is_dirty attr = true) /\
  (Mapper.has_flag (Mapper.flags_ m) Mapper.KEEP_FIELDS_DIRTY = true ->
   attr' = attr).
Proof.
  intros m attr.
  apply (set_never_alters_cell_value Z Mapper.set_time typed_set_of_time
           "at" m attr).
Defined.

Lemma second_set_is_skipped_witness :
  let m := Mapper.new 0 in
  let attr : Field.t string := Field.Build (Some "Ann") true in
  let once := final (Mapper.set_field "name" (m, attr)) in
  Mapper.emitter_ (fst once) =
    [Json.MapOpen; Json.Key "name"; Json.Scalar (Json.VString "Ann")] /\
  Mapper.set_field "name" once = (Returned tt, once).
Proof.
  intros m attr once. split; [reflexivity|].
  apply (second_set_is_skipped (string : Type) Mapper.set_field
           (set_of_field string) "name" m attr); reflexivity.
Defined.

Lemma relation_set_follows_dirty_rule_witness :
  let m := Mapper.new 0 in
  let clean := {| hydrated := None; probe_dirty := false |} in
  Mapper.set_has_one "owner" (m, clean) = (Returned tt, (m, clean)).
Proof.
  intros m clean.
  apply (relation_set_follows_dirty_rule Mapper.set_has_one set_of_has_one
           "owner" m clean); reflexivity.
Defined.

Lemma run_only_appends_witness :
  let m := Mapper.new_from text_a 0 in
  let calls := [SetField "name" (Field.Build (Some "Ann") true);
                SetPrimary "id" (Field.Build (Some 42) false)] in
  Mapper.flags_ (run calls m) = Mapper.flags_ m /\
  Mapper.field_filter_ (run calls m) = Mapper.field_filter_ m /\
  forall T get, typed_get T get -> forall key (attr : Field.t T),
    get key (run calls m) attr = get key m attr.
Proof.
  intros m calls.
  apply (run_only_appends calls m). repeat constructor.
Defined.

Lemma plain_pass_output_witness :
  outcome (serialize Mapper.INCLUDE_PRIMARY_KEY
             [SetPrimary "id" (Field.Build (Some 42) false);
              SetField "name" (Field.Build (Some "Ann") true);
              SetField "age" (Field.Build (Some 30) false);
              SetFieldFilter "age";
              SetField "nick" (Field.Build (None : option string) true)]) =
    Returned [Json.MapOpen;
              Json.Key "id"; Json.Scalar (Json.VInt 42);
              Json.Key "name"; Json.Scalar (Json.VString "Ann");
              Json.Key "nick"; Json.Null;
              Json.MapClose].
Proof.
  refine (proj1 (plain_pass_output Mapper.INCLUDE_PRIMARY_KEY _ eq_refl _)).
  repeat constructor.
Defined.

Lemma set_ignores_deserialize_flags_witness :
  let c := SetField "name" (Field.Build (Some "Ann") true) in
  Mapper.emitter_ (call c (Mapper.new 0)) =
  Mapper.emitter_
    (call c (Mapper.new (Mapper.IGNORE_MISSING_FIELDS + Mapper.TOUCH_FIELDS))).
Proof.
  intros c.
  apply (set_ignores_deserialize_flags c (Mapper.new 0)
           (Mapper.new (Mapper.IGNORE_MISSING_FIELDS + Mapper.TOUCH_FIELDS)));
    reflexivity.
Defined.

Lemma get_overwrites_cell_witness :
  let m := Mapper.new_from text_a 0 in
  let r := Mapper.get_primary "a" m (Field.Build None false) in
  outcome r = Returned tt /\
  Field.is_null (final r) = false /\
  Field.value (final (Mapper.get_primary "a" m (Field.Build (Some 9) true))) =
    Field.value (final r).
Proof.
  intros m.
  apply (get_overwrites_cell Z Mapper.get_primary get_of_primary "a" m
           (Json.JInt 1) (Field.Build None false) (Field.Build (Some 9) true)).
  reflexivity.
Defined.

Lemma value_round_trip_witness :
  let reader := Mapper.new_from text_a 0 in
  let writer := Mapper.new Mapper.INCLUDE_PRIMARY_KEY in
  Mapper.emitter_
    (fst (final (Mapper.set_primary "a"
                   (writer,
                    final (Mapper.get_primary "a" reader (Field.Build None false)))))) =
  [Json.MapOpen; Json.Key "a"; Json.Scalar (Json.VInt 1)].
Proof.
  intros reader writer.
  destruct (value_round_trip "a" reader writer (Json.JInt 1)
              eq_refl eq_refl eq_refl) as (_ & _ & Hprimary).
  apply (Hprimary (Field.Build None false)). reflexivity.
Defined.

Lemma touched_field_is_emitted_witness :
  let reader :=
    Mapper.new_from text_a (Mapper.TOUCH_FIELDS + Mapper.IGNORE_MISSING_FIELDS) in
  let writer := Mapper.new 0 in
  let attr : Field.t Z := Field.Build (Some 7) false in
  exists tok,
    (exists v, tok = Json.Scalar v) /\
    Mapper.emitter_
      (fst (final (Mapper.set_field "b"
                     (writer, final (Mapper.get_field "b" reader attr))))) =
    Mapper.emitter_ writer ++ [Json.Key "b"; tok].
Proof.
  intros reader writer attr.
  apply (touched_field_is_emitted Z Mapper.get_field Mapper.set_field
           (get_of_field Z) (set_of_field Z) "b" reader writer attr);
    reflexivity.
Defined.

Lemma unloaded_mapper_reads_nothing_witness :
  let m := run [SetField "name" (Field.Build (Some "Ann") true)] (Mapper.new 0) in
  Mapper.get_time "name" m (Field.Build (Some 5) false) =
    (Thrown (NotFound "name"), Field.Build (Some 5) false).
Proof.
  intros m.
  apply (unloaded_mapper_reads_nothing 0
           [SetField "name" (Field.Build (Some "Ann") true)]).
  exact get_of_time.
Defined.


Lemma relation_flags_are_stable_witness :
  let m := Mapper.new (Mapper.OUTPUT_SINGLE_FIELD + Mapper.IGNORE_DIRTY_FLAG) in
  let nested := Mapper.new (Mapper.to_json_flags m) in
  Mapper.to_json_flags nested = Mapper.to_json_flags m /\
  Mapper.should_include_primary_key nested = true /\
  Mapper.should_output_single_field nested = false.
Proof.
  intros m nested.
  apply (relation_flags_are_stable m). reflexivity.
Defined.
